(** * DMA data transfer with descriptor chain (PSoC 4, [main.c])

    A shallow embedding of [main] and of the hardware it drives.  The
    processor, the DMA controller and the UART transmitter run side by
    side: a run is an interleaving of processor steps (one per statement
    of [main]), of controller steps (one data element moved, or one
    descriptor retired) and of transmitter steps (the bytes it holds are
    sent).  Every definition is a function, so that a run can be evaluated
    on a concrete schedule. *)

From Stdlib Require Import String ZArith List Lia Bool.
From Stdlib.Strings Require Import Byte.
Import ListNotations.
Local Open Scope Z_scope.

(** ** Bytes, arrays and string literals *)

Definition NUL : byte := x00.
Definition ESC : byte := x1b.
Definition CR : byte := x0d.
Definition LF : byte := x0a.

(** The characters of a C string literal, without its terminator. *)
Definition chars (lit : string) : list byte := list_byte_of_string lit.

(** [T a[n] = "lit"]: the characters of the literal, then the terminator
    and zero padding as far as the array has room for them. *)
Definition c_array_init (n : nat) (lit : string) : list byte :=
  firstn n (chars lit ++ repeat NUL n).

(** [T a[n] = {0UL}]: the first element is given, the others are zeroed. *)
Definition c_array_zero (n : nat) : list byte := repeat NUL n.

(** In-place update of one cell; the list is unchanged out of range. *)
Fixpoint upd (l : list byte) (k : nat) (v : byte) : list byte :=
  match l, k with
  | [], _ => []
  | _ :: t, O => v :: t
  | h :: t, S k' => h :: upd t k' v
  end.

(** [a[i]] as an rvalue and as an lvalue.  An index outside the array is
    undefined behaviour in C: the access yields [None]. *)
Definition in_bounds (l : list byte) (i : Z) : bool :=
  (0 <=? i) && (i <? Z.of_nat (length l)).

Definition aget (l : list byte) (i : Z) : option byte :=
  if in_bounds l i then nth_error l (Z.to_nat i) else None.

Definition aset (l : list byte) (i : Z) (v : byte) : option (list byte) :=
  if in_bounds l i then Some (upd l (Z.to_nat i) v) else None.

(** ** Macros and globals of [main.c] *)

(* main.c:58 *)
Definition DMAC_TRANSFER_SIZE : Z := 16.

(** The four memory regions (main.c:71-74).  All four live in SRAM, so the
    model lets the controller write any of them: that the sources keep
    their content is a theorem, not a typing fact. *)
Record sram := {
  g_region1Src : list byte;
  g_region1Dst : list byte;
  g_region2Src : list byte;
  g_region2Dst : list byte
}.

Definition sram_init : sram := {|
  g_region1Src := c_array_init (Z.to_nat DMAC_TRANSFER_SIZE) "PSoC4_HVMS-DMADC";
  g_region1Dst := c_array_zero (Z.to_nat DMAC_TRANSFER_SIZE);
  g_region2Src := c_array_init (Z.to_nat DMAC_TRANSFER_SIZE) "PSoC4_HVMS-DMADC";
  g_region2Dst := c_array_zero (Z.to_nat DMAC_TRANSFER_SIZE)
|}.

(** The addresses [&g_region1Src], ... handed to the controller. *)
Inductive region := Region1Src | Region1Dst | Region2Src | Region2Dst.

Definition load (m : sram) (r : region) : list byte :=
  match r with
  | Region1Src => g_region1Src m
  | Region1Dst => g_region1Dst m
  | Region2Src => g_region2Src m
  | Region2Dst => g_region2Dst m
  end.

Definition store (m : sram) (r : region) (l : list byte) : sram :=
  match r with
  | Region1Src => {| g_region1Src := l; g_region1Dst := g_region1Dst m;
                     g_region2Src := g_region2Src m; g_region2Dst := g_region2Dst m |}
  | Region1Dst => {| g_region1Src := g_region1Src m; g_region1Dst := l;
                     g_region2Src := g_region2Src m; g_region2Dst := g_region2Dst m |}
  | Region2Src => {| g_region1Src := g_region1Src m; g_region1Dst := g_region1Dst m;
                     g_region2Src := l; g_region2Dst := g_region2Dst m |}
  | Region2Dst => {| g_region1Src := g_region1Src m; g_region1Dst := g_region1Dst m;
                     g_region2Src := g_region2Src m; g_region2Dst := l |}
  end.

(** ** The transfer engine *)

Inductive cy_en_dmac_descriptor_t :=
  | CY_DMAC_DESCRIPTOR_PING
  | CY_DMAC_DESCRIPTOR_PONG.

(** Modelled from the spec: the response codes of [cy_pdl.h] are not part
    of the sources; the spec's [poll_status] reads one descriptor's
    completion flag as one of [{Pending, Done}]. *)
Inductive poll_status := Pending | Done.

Definition CY_DMAC_DONE : poll_status := Done.

Definition poll_status_eqb (a b : poll_status) : bool :=
  match a, b with
  | Pending, Pending | Done, Done => true
  | _, _ => false
  end.

(** Modelled from the spec: the generated descriptor configurations
    [USER_DMA_ping_config] and [USER_DMA_pong_config] are not part of the
    sources.  A descriptor specifies its transfer size and which descriptor
    executes next; ping's next descriptor is statically set to pong, pong's
    is set to none, and the transfer size is 16 bytes. *)
Record descriptor_config := {
  dataCount : nat;
  chain : option cy_en_dmac_descriptor_t
}.

Definition USER_DMA_ping_config : descriptor_config :=
  {| dataCount := Z.to_nat DMAC_TRANSFER_SIZE; chain := Some CY_DMAC_DESCRIPTOR_PONG |}.

Definition USER_DMA_pong_config : descriptor_config :=
  {| dataCount := Z.to_nat DMAC_TRANSFER_SIZE; chain := None |}.

(** Modelled from the spec: a descriptor binds one source and one
    destination region to a transfer unit and carries its completion flag. *)
Record descriptor := {
  d_src : option region;
  d_dst : option region;
  d_count : nat;
  d_next : option cy_en_dmac_descriptor_t;
  d_response : poll_status
}.

Definition descriptor_reset : descriptor :=
  {| d_src := None; d_dst := None; d_count := O; d_next := None; d_response := Pending |}.

(** Modelled from the spec: the channel owns the ping and the pong
    descriptor.  [active] is the descriptor being executed together with
    the number of bytes it has already moved; [None] when the channel is
    idle, armed or done. *)
Record dmac := {
  chan_enabled : bool;
  block_enabled : bool;
  ping : descriptor;
  pong : descriptor;
  active : option (cy_en_dmac_descriptor_t * nat)
}.

Definition dmac_reset : dmac :=
  {| chan_enabled := false; block_enabled := false;
     ping := descriptor_reset; pong := descriptor_reset; active := None |}.

Definition descr (c : dmac) (d : cy_en_dmac_descriptor_t) : descriptor :=
  match d with
  | CY_DMAC_DESCRIPTOR_PING => ping c
  | CY_DMAC_DESCRIPTOR_PONG => pong c
  end.

Definition set_descr (c : dmac) (d : cy_en_dmac_descriptor_t) (x : descriptor) : dmac :=
  match d with
  | CY_DMAC_DESCRIPTOR_PING =>
      {| chan_enabled := chan_enabled c; block_enabled := block_enabled c;
         ping := x; pong := pong c; active := active c |}
  | CY_DMAC_DESCRIPTOR_PONG =>
      {| chan_enabled := chan_enabled c; block_enabled := block_enabled c;
         ping := ping c; pong := x; active := active c |}
  end.

Definition set_active (c : dmac) (a : option (cy_en_dmac_descriptor_t * nat)) : dmac :=
  {| chan_enabled := chan_enabled c; block_enabled := block_enabled c;
     ping := ping c; pong := pong c; active := a |}.

Definition retire (x : descriptor) : descriptor :=
  {| d_src := d_src x; d_dst := d_dst x; d_count := d_count x;
     d_next := d_next x; d_response := Done |}.

(** Modelled from the spec: the channel lifecycle. *)
Inductive channel_state := Idle | Enabled | Transferring | Finished.

Definition lifecycle (c : dmac) : channel_state :=
  match active c with
  | Some _ => Transferring
  | None =>
      match d_response (pong c) with
      | Done => Finished
      | Pending => if chan_enabled c && block_enabled c then Enabled else Idle
      end
  end.

(** ** The processor *)

(** Program points of [main], named after the line of main.c they stand
    at.  The four copy-and-print loops carry their index [i]: at the loop
    head ([L152 i], [L162 i], [L173 i], [L183 i]) the guard is tested and
    the cell copied; at [L155 i], [L165 i], [L176 i], [L186 i] the
    program stands in the wait for the transmitter, after which it sends
    the byte and steps the index.  [L105] is the halt of [CY_ASSERT(0)],
    [L195] the final idle loop and [Lundef] the state after an
    out-of-bounds array access. *)
Inductive label :=
  | L102 | L103 | L105 | L109 | L112
  | L115 | L116 | L117 | L120 | L121 | L122
  | L125 | L128 | L131 | L132
  | L134 | L135 | L136 | L137
  | L144 | L147
  | L150 | L152 (i : Z) | L155 (i : Z) | L159
  | L160 | L162 (i : Z) | L165 (i : Z) | L168
  | L171 | L173 (i : Z) | L176 (i : Z) | L180
  | L181 | L183 (i : Z) | L186 (i : Z) | L190
  | L193 | L195 | Lundef.

(** The automatic variables of [main] (main.c:95-99). *)
Record frame := {
  result : Z;
  srcdata1 : list byte;
  dstdata1 : list byte;
  srcdata2 : list byte;
  dstdata2 : list byte
}.

(** The machine: program point and locals of the processor, memory, the
    DMA controller, and every byte handed to the UART so far. *)
Record machine := {
  pc : label;
  locals : frame;
  mem : sram;
  dma : dmac;
  console : list byte
}.

Definition goto (l : label) (m : machine) : machine :=
  {| pc := l; locals := locals m; mem := mem m; dma := dma m; console := console m |}.

Definition set_locals (f : frame) (m : machine) : machine :=
  {| pc := pc m; locals := f; mem := mem m; dma := dma m; console := console m |}.

Definition set_dma (c : dmac) (m : machine) : machine :=
  {| pc := pc m; locals := locals m; mem := mem m; dma := c; console := console m |}.

Definition set_mem (r : sram) (m : machine) : machine :=
  {| pc := pc m; locals := locals m; mem := r; dma := dma m; console := console m |}.

Definition set_result (v : Z) (f : frame) : frame :=
  {| result := v; srcdata1 := srcdata1 f; dstdata1 := dstdata1 f;
     srcdata2 := srcdata2 f; dstdata2 := dstdata2 f |}.

Definition set_srcdata1 (a : list byte) (f : frame) : frame :=
  {| result := result f; srcdata1 := a; dstdata1 := dstdata1 f;
     srcdata2 := srcdata2 f; dstdata2 := dstdata2 f |}.

Definition set_dstdata1 (a : list byte) (f : frame) : frame :=
  {| result := result f; srcdata1 := srcdata1 f; dstdata1 := a;
     srcdata2 := srcdata2 f; dstdata2 := dstdata2 f |}.

Definition set_srcdata2 (a : list byte) (f : frame) : frame :=
  {| result := result f; srcdata1 := srcdata1 f; dstdata1 := dstdata1 f;
     srcdata2 := a; dstdata2 := dstdata2 f |}.

Definition set_dstdata2 (a : list byte) (f : frame) : frame :=
  {| result := result f; srcdata1 := srcdata1 f; dstdata1 := dstdata1 f;
     srcdata2 := srcdata2 f; dstdata2 := a |}.

(** ** The driver calls made by [main]

    The peripheral driver library is not part of the sources; each call is
    given the effect the spec's operations [configure], [enable],
    [trigger], [poll_status] and the console reporter describe. *)

(** Modelled from the spec: a channel is initialised once, before it is
    enabled; initialising it leaves it idle, not armed and with no
    descriptor executing. *)
Definition Cy_DMAC_Channel_Init (m : machine) : machine :=
  set_dma {| chan_enabled := false; block_enabled := block_enabled (dma m);
             ping := ping (dma m); pong := pong (dma m); active := None |} m.

(** Modelled from the spec: [configure] gives a descriptor its transfer
    size and chaining link and clears its completion flag. *)
Definition Cy_DMAC_Descriptor_Init (d : cy_en_dmac_descriptor_t)
    (cfg : descriptor_config) (m : machine) : machine :=
  let x := descr (dma m) d in
  set_dma (set_descr (dma m) d
             {| d_src := d_src x; d_dst := d_dst x; d_count := dataCount cfg;
                d_next := chain cfg; d_response := Pending |}) m.

(** Modelled from the spec: [configure] binds the source region. *)
Definition Cy_DMAC_Descriptor_SetSrcAddress (d : cy_en_dmac_descriptor_t)
    (r : region) (m : machine) : machine :=
  let x := descr (dma m) d in
  set_dma (set_descr (dma m) d
             {| d_src := Some r; d_dst := d_dst x; d_count := d_count x;
                d_next := d_next x; d_response := d_response x |}) m.

(** Modelled from the spec: [configure] binds the destination region. *)
Definition Cy_DMAC_Descriptor_SetDstAddress (d : cy_en_dmac_descriptor_t)
    (r : region) (m : machine) : machine :=
  let x := descr (dma m) d in
  set_dma (set_descr (dma m) d
             {| d_src := d_src x; d_dst := Some r; d_count := d_count x;
                d_next := d_next x; d_response := d_response x |}) m.

(** Modelled from the spec: [enable] arms the channel so that it is ready
    to accept a trigger.  [main] enables the channel, then the controller
    block; the channel is armed when both are on. *)
Definition Cy_DMAC_Channel_Enable (m : machine) : machine :=
  set_dma {| chan_enabled := true; block_enabled := block_enabled (dma m);
             ping := ping (dma m); pong := pong (dma m); active := active (dma m) |} m.

(** Modelled from the spec: [enable], for the controller block. *)
Definition Cy_DMAC_Enable (m : machine) : machine :=
  set_dma {| chan_enabled := chan_enabled (dma m); block_enabled := true;
             ping := ping (dma m); pong := pong (dma m); active := active (dma m) |} m.

(** Modelled from the spec: [trigger] is the one-shot signal that begins
    descriptor execution in chain order, ping first.  It only takes effect
    on an armed channel that is not already transferring. *)
Definition Cy_TrigMux_SwTrigger (m : machine) : machine :=
  match lifecycle (dma m) with
  | Enabled => set_dma (set_active (dma m) (Some (CY_DMAC_DESCRIPTOR_PING, O))) m
  | _ => m
  end.

(** Modelled from the spec: [poll_status], a non-blocking read of one
    descriptor's completion flag. *)
Definition Cy_DMAC_Descriptor_GetResponse (d : cy_en_dmac_descriptor_t)
    (m : machine) : poll_status :=
  d_response (descr (dma m) d).

(** Modelled from the spec: the console reporter's [write_line] and
    [write_byte]; both block until the bytes are accepted, and the console
    is the sequence of bytes accepted so far. *)
Definition Cy_SCB_UART_PutString (s : list byte) (m : machine) : machine :=
  {| pc := pc m; locals := locals m; mem := mem m; dma := dma m;
     console := console m ++ s |}.

(** Modelled from the spec: [write_byte]. *)
Definition Cy_SCB_UART_Put (b : byte) (m : machine) : machine :=
  Cy_SCB_UART_PutString [b] m.

(** ** One step of the transfer engine *)

(** Modelled from the spec: the engine is a single copy unit.  While a
    descriptor is active it moves one byte per step from its source to its
    destination region; when all bytes are moved the descriptor retires:
    its completion flag becomes [Done] and its chaining link, if any,
    becomes the active descriptor.  A descriptor without source or
    destination, or reaching outside a region, stops the channel. *)
Definition dma_step (m : machine) : machine :=
  match active (dma m) with
  | None => m
  | Some (d, k) =>
      let x := descr (dma m) d in
      if (k <? d_count x)%nat then
        match d_src x, d_dst x with
        | Some s, Some t =>
            match nth_error (load (mem m) s) k with
            | Some v =>
                if (k <? length (load (mem m) t))%nat then
                  set_dma (set_active (dma m) (Some (d, S k)))
                    (set_mem (store (mem m) t (upd (load (mem m) t) k v)) m)
                else set_dma (set_active (dma m) None) m
            | None => set_dma (set_active (dma m) None) m
            end
        | _, _ => set_dma (set_active (dma m) None) m
        end
      else
        set_dma (set_active (set_descr (dma m) d (retire x))
                   (match d_next x with
                    | Some d' => Some (d', O)
                    | None => None
                    end)) m
  end.

(** ** The string literals of [main] *)

Definition CRLF : list byte := [CR; LF].

(* main.c:134, "\x1b[2J\x1b[;H" *)
Definition str_clear_screen : list byte :=
  ESC :: chars "[2J" ++ ESC :: chars "[;H".

(* main.c:135 *)
Definition str_banner_rule : list byte :=
  chars "************************************************************" ++ CRLF.

(* main.c:136 *)
Definition str_banner_title : list byte :=
  chars "DMA Data Transfer with Descriptor Chain " ++ CRLF.

(* main.c:137 *)
Definition str_banner_rule_end : list byte :=
  chars "************************************************************" ++ CRLF ++ [LF].

(* main.c:150, 160, 171, 181 *)
Definition str_ping_source : list byte := chars "PING source = ".
Definition str_ping_destination : list byte := chars "PING destination = ".
Definition str_pong_source : list byte := chars "PONG source = ".
Definition str_pong_destination : list byte := chars "PONG destination = ".

(* main.c:193 *)
Definition str_completed : list byte :=
  chars "- DMA transfer is completed. " ++ CRLF.

(** ** The body of the copy-and-print loops

    [loc[i] = src[i];] gives the updated local array.  The conversions
    from [uint8_t] to [char] and, when the cell is sent, from [char] to
    the argument of [Cy_SCB_UART_Put] keep the eight bits that are sent. *)
Definition copy_cell (src loc : list byte) (i : Z) : option (list byte) :=
  match aget src i with
  | Some b => aset loc i b
  | None => None
  end.

(** Index arithmetic of the loop counters: [uint8_t i; i++] and
    [uint32_t i; i--]. *)
Definition incr_u8 (i : Z) : Z := (i + 1) mod 2 ^ 8.
Definition decr_u32 (i : Z) : Z := (i - 1) mod 2 ^ 32.

Section Program.

(** The value of the macro [CY_RSLT_SUCCESS] (its header is not part of
    the sources) and the result that [cybsp_init] returns on this board. *)
Variable CY_RSLT_SUCCESS : Z.
Variable cybsp_init : Z.

(** Modelled from the spec: [CY_ASSERT] is a hard assertion; a failed
    assertion halts the program for good, at the program point [L105]. *)
Definition CY_ASSERT (x : Z) (m : machine) : machine :=
  if x =? 0 then goto L105 m else m.

(** ** One step of the processor: one statement of [main]

    At the four waits for the transmitter this is the step the processor
    takes once [Cy_SCB_UART_IsTxComplete] has read true; [step] below
    keeps it in the wait until then. *)
Definition cpu_step (m : machine) : machine :=
  match pc m with
  (* result = cybsp_init(); *)
  | L102 => goto L103 (set_locals (set_result cybsp_init (locals m)) m)
  (* if (result != CY_RSLT_SUCCESS) { CY_ASSERT(0); } *)
  | L103 =>
      if negb (result (locals m) =? CY_RSLT_SUCCESS)
      then CY_ASSERT 0 (goto L109 m)
      else goto L109 m
  (* halted in CY_ASSERT(0) *)
  | L105 => m
  (* __enable_irq(); *)
  | L109 => goto L112 m
  | L112 => goto L115 (Cy_DMAC_Channel_Init m)
  | L115 => goto L116
      (Cy_DMAC_Descriptor_Init CY_DMAC_DESCRIPTOR_PING USER_DMA_ping_config m)
  | L116 => goto L117
      (Cy_DMAC_Descriptor_SetSrcAddress CY_DMAC_DESCRIPTOR_PING Region1Src m)
  | L117 => goto L120
      (Cy_DMAC_Descriptor_SetDstAddress CY_DMAC_DESCRIPTOR_PING Region1Dst m)
  | L120 => goto L121
      (Cy_DMAC_Descriptor_Init CY_DMAC_DESCRIPTOR_PONG USER_DMA_pong_config m)
  | L121 => goto L122
      (Cy_DMAC_Descriptor_SetSrcAddress CY_DMAC_DESCRIPTOR_PONG Region2Src m)
  | L122 => goto L125
      (Cy_DMAC_Descriptor_SetDstAddress CY_DMAC_DESCRIPTOR_PONG Region2Dst m)
  | L125 => goto L128 (Cy_DMAC_Channel_Enable m)
  | L128 => goto L131 (Cy_DMAC_Enable m)
  (* Cy_SCB_UART_Init(..); Cy_SCB_UART_Enable(..); *)
  | L131 => goto L132 m
  | L132 => goto L134 m
  | L134 => goto L135 (Cy_SCB_UART_PutString str_clear_screen m)
  | L135 => goto L136 (Cy_SCB_UART_PutString str_banner_rule m)
  | L136 => goto L137 (Cy_SCB_UART_PutString str_banner_title m)
  | L137 => goto L144 (Cy_SCB_UART_PutString str_banner_rule_end m)
  | L144 => goto L147 (Cy_TrigMux_SwTrigger m)
  | L147 =>
      (* while (CY_DMAC_DONE == Cy_DMAC_Descriptor_GetResponse(.., PONG)); *)
      if poll_status_eqb CY_DMAC_DONE
           (Cy_DMAC_Descriptor_GetResponse CY_DMAC_DESCRIPTOR_PONG m)
      then goto L147 m
      else goto L150 m
  (* for(uint8_t i=0; i<DMAC_TRANSFER_SIZE; i++) *)
  | L150 => goto (L152 0) (Cy_SCB_UART_PutString str_ping_source m)
  | L152 i =>
      if i <? DMAC_TRANSFER_SIZE then
        (* srcdata1[i] = g_region1Src[i]; *)
        match copy_cell (g_region1Src (mem m)) (srcdata1 (locals m)) i with
        | Some a => goto (L155 i) (set_locals (set_srcdata1 a (locals m)) m)
        | None => goto Lundef m
        end
      else goto L159 m
  (* while (!Cy_SCB_UART_IsTxComplete(UART_HW)); has been left:
     Cy_SCB_UART_Put(UART_HW, srcdata1[i]); and the counter is stepped *)
  | L155 i =>
      match aget (srcdata1 (locals m)) i with
      | Some c => goto (L152 (incr_u8 i)) (Cy_SCB_UART_Put c m)
      | None => goto Lundef m
      end
  | L159 => goto L160 (Cy_SCB_UART_PutString CRLF m)
  | L160 => goto (L162 0) (Cy_SCB_UART_PutString str_ping_destination m)
  | L162 i =>
      if i <? DMAC_TRANSFER_SIZE then
        (* dstdata1[i] = g_region1Dst[i]; *)
        match copy_cell (g_region1Dst (mem m)) (dstdata1 (locals m)) i with
        | Some a => goto (L165 i) (set_locals (set_dstdata1 a (locals m)) m)
        | None => goto Lundef m
        end
      else goto L168 m
  (* while (!Cy_SCB_UART_IsTxComplete(UART_HW)); has been left:
     Cy_SCB_UART_Put(UART_HW, dstdata1[i]); and the counter is stepped *)
  | L165 i =>
      match aget (dstdata1 (locals m)) i with
      | Some c => goto (L162 (incr_u8 i)) (Cy_SCB_UART_Put c m)
      | None => goto Lundef m
      end
  | L168 => goto L171 (Cy_SCB_UART_PutString CRLF m)
  (* for(uint32_t i=15; i<DMAC_TRANSFER_SIZE; i--) *)
  | L171 => goto (L173 15) (Cy_SCB_UART_PutString str_pong_source m)
  | L173 i =>
      if i <? DMAC_TRANSFER_SIZE then
        (* srcdata2[i] = g_region2Src[i]; *)
        match copy_cell (g_region2Src (mem m)) (srcdata2 (locals m)) i with
        | Some a => goto (L176 i) (set_locals (set_srcdata2 a (locals m)) m)
        | None => goto Lundef m
        end
      else goto L180 m
  (* while (!Cy_SCB_UART_IsTxComplete(UART_HW)); has been left:
     Cy_SCB_UART_Put(UART_HW, srcdata2[i]); and the counter is stepped *)
  | L176 i =>
      match aget (srcdata2 (locals m)) i with
      | Some c => goto (L173 (decr_u32 i)) (Cy_SCB_UART_Put c m)
      | None => goto Lundef m
      end
  | L180 => goto L181 (Cy_SCB_UART_PutString CRLF m)
  | L181 => goto (L183 15) (Cy_SCB_UART_PutString str_pong_destination m)
  | L183 i =>
      if i <? DMAC_TRANSFER_SIZE then
        (* dstdata2[i] = g_region2Dst[i]; *)
        match copy_cell (g_region2Dst (mem m)) (dstdata2 (locals m)) i with
        | Some a => goto (L186 i) (set_locals (set_dstdata2 a (locals m)) m)
        | None => goto Lundef m
        end
      else goto L190 m
  (* while (!Cy_SCB_UART_IsTxComplete(UART_HW)); has been left:
     Cy_SCB_UART_Put(UART_HW, dstdata2[i]); and the counter is stepped *)
  | L186 i =>
      match aget (dstdata2 (locals m)) i with
      | Some c => goto (L183 (decr_u32 i)) (Cy_SCB_UART_Put c m)
      | None => goto Lundef m
      end
  | L190 => goto L193 (Cy_SCB_UART_PutString CRLF m)
  | L193 => goto L195 (Cy_SCB_UART_PutString str_completed m)
  (* for(;;) {} *)
  | L195 => m
  | Lundef => m
  end.

(** ** The transmitter and the waits for it *)

(** Modelled from the spec: the console transport takes the bytes handed
    to it and reports when it is ready for the next one.  [sent] is the
    number of bytes of the console that the transmitter has sent. *)
Record system := {
  core : machine;
  sent : nat
}.

(** Modelled from the spec: the transport is ready when it holds no byte
    that it has not sent. *)
Definition Cy_SCB_UART_IsTxComplete (s : system) : bool :=
  (length (console (core s)) <=? sent s)%nat.

(** Modelled from the spec: one step of the transmitter sends the bytes
    it holds. *)
Definition uart_step (s : system) : system :=
  {| core := core s; sent := length (console (core s)) |}.

(** The program points of
    [while (!Cy_SCB_UART_IsTxComplete(UART_HW));] (main.c:155, 165, 176,
    186). *)
Definition waiting (l : label) : bool :=
  match l with
  | L155 _ | L165 _ | L176 _ | L186 _ => true
  | _ => false
  end.

(** The processor is in one of these loops and its poll reads false: it
    goes round the loop once more. *)
Definition spinning (s : system) : bool :=
  waiting (pc (core s)) && negb (Cy_SCB_UART_IsTxComplete s).

(** ** Runs *)

Inductive agent := CPU | DMA | UART.

Definition step (a : agent) (s : system) : system :=
  match a with
  | CPU =>
      if spinning s then s
      else {| core := cpu_step (core s); sent := sent s |}
  | DMA => {| core := dma_step (core s); sent := sent s |}
  | UART => uart_step s
  end.

(** A schedule says who moves next; a run follows it from left to right. *)
Definition run (sched : list agent) (s : system) : system :=
  fold_left (fun s a => step a s) sched s.

(** The automatic variables of [main] are not initialised: their first
    content is whatever the stack holds. *)
Record garbage := {
  junk_result : Z;
  junk_srcdata1 : nat -> byte;
  junk_dstdata1 : nat -> byte;
  junk_srcdata2 : nat -> byte;
  junk_dstdata2 : nat -> byte
}.

Definition char16 (junk : nat -> byte) : list byte := map junk (seq 0 16).

Definition reset (g : garbage) : machine :=
  {| pc := L102;
     locals := {| result := junk_result g;
                  srcdata1 := char16 (junk_srcdata1 g);
                  dstdata1 := char16 (junk_dstdata1 g);
                  srcdata2 := char16 (junk_srcdata2 g);
                  dstdata2 := char16 (junk_dstdata2 g) |};
     mem := sram_init;
     dma := dmac_reset;
     console := [] |}.

(** At reset the transmitter holds nothing. *)
Definition boot (g : garbage) : system := {| core := reset g; sent := 0 |}.

(** The system after the schedule [sched], started from reset, and its
    machine. *)
Definition after (g : garbage) (sched : list agent) : system :=
  run sched (boot g).

Definition exec (g : garbage) (sched : list agent) : machine :=
  core (after g sched).

(** * Specification vocabulary *)

(** The content both source regions are initialised with, and the content
    of a destination region of which the engine has moved [k] bytes. *)
Definition src0 : list byte := chars "PSoC4_HVMS-DMADC".

Definition moved (k : nat) : list byte := firstn k src0 ++ repeat NUL (16 - k).

(** The position of a program point in the text of [main]; the two
    program points of a loop share theirs. *)
Definition rank (l : label) : nat :=
  match l with
  | L102 => 0 | L103 => 1 | L105 => 2 | L109 => 3 | L112 => 4
  | L115 => 5 | L116 => 6 | L117 => 7 | L120 => 8 | L121 => 9 | L122 => 10
  | L125 => 11 | L128 => 12 | L131 => 13 | L132 => 14
  | L134 => 15 | L135 => 16 | L136 => 17 | L137 => 18
  | L144 => 19 | L147 => 20
  | L150 => 21 | L152 _ | L155 _ => 22 | L159 => 23
  | L160 => 24 | L162 _ | L165 _ => 25 | L168 => 26
  | L171 => 27 | L173 _ | L176 _ => 28 | L180 => 29
  | L181 => 30 | L183 _ | L186 _ => 31 | L190 => 32
  | L193 => 33 | L195 => 34 | Lundef => 35
  end%nat.

(** The software trigger of main.c:144 has not been issued yet. *)
Definition before_trigger (l : label) : bool := (rank l <=? rank L144)%nat.

(** The polling loop of main.c:147 has been left: the program reads back
    and prints the buffers. *)
Definition reporting (l : label) : bool := (rank L150 <=? rank l)%nat.

(** How many of the six descriptor settings of main.c:115-122 are made. *)
Definition stage (l : label) : nat :=
  match l with
  | L102 | L103 | L105 | L109 | L112 | L115 => 0
  | L116 => 1 | L117 => 2 | L120 => 3 | L121 => 4 | L122 => 5
  | _ => 6
  end%nat.

Definition cfg_ok (n : nat) (c : dmac) : Prop :=
  ((1 <= n)%nat -> d_count (ping c) = 16%nat /\
                   d_next (ping c) = Some CY_DMAC_DESCRIPTOR_PONG) /\
  ((2 <= n)%nat -> d_src (ping c) = Some Region1Src) /\
  ((3 <= n)%nat -> d_dst (ping c) = Some Region1Dst) /\
  ((4 <= n)%nat -> d_count (pong c) = 16%nat /\ d_next (pong c) = None) /\
  ((5 <= n)%nat -> d_src (pong c) = Some Region2Src) /\
  ((6 <= n)%nat -> d_dst (pong c) = Some Region2Dst).

Definition wf_mem (r : sram) : Prop :=
  g_region1Src r = src0 /\ g_region2Src r = src0 /\
  length (g_region1Dst r) = 16%nat /\ length (g_region2Dst r) = 16%nat.

(** Where the chain stands, and what the destination regions hold there. *)
Definition engine_ok (l : label) (r : sram) (c : dmac) : Prop :=
  match active c with
  | Some (CY_DMAC_DESCRIPTOR_PING, k) =>
      before_trigger l = false /\ (k <= 16)%nat /\
      d_response (ping c) = Pending /\ d_response (pong c) = Pending /\
      g_region1Dst r = moved k /\ g_region2Dst r = moved 0
  | Some (CY_DMAC_DESCRIPTOR_PONG, k) =>
      before_trigger l = false /\ (k <= 16)%nat /\
      d_response (ping c) = Done /\ d_response (pong c) = Pending /\
      g_region1Dst r = moved 16 /\ g_region2Dst r = moved k
  | None =>
      match d_response (pong c) with
      | Pending =>
          d_response (ping c) = Pending /\
          g_region1Dst r = moved 0 /\ g_region2Dst r = moved 0
      | Done =>
          before_trigger l = false /\ d_response (ping c) = Done /\
          g_region1Dst r = moved 16 /\ g_region2Dst r = moved 16
      end
  end.

(** Cells a descending loop at index [i] has still to visit. *)
Definition todo_down (i : Z) : nat :=
  if i <? DMAC_TRANSFER_SIZE then Z.to_nat (i + 1) else 0%nat.

(** Cells of [srcdata1] and [dstdata1] already written (ascending loops),
    cells of [srcdata2] and [dstdata2] not yet written (descending loops).
    In the wait of a pass the cell of the pass is written, not yet sent. *)
Definition done1 (l : label) : nat :=
  match l with
  | L152 i => Z.to_nat i
  | L155 i => S (Z.to_nat i)
  | _ => if (rank l <? rank (L152 0))%nat then 0%nat else 16%nat
  end.

Definition done2 (l : label) : nat :=
  match l with
  | L162 i => Z.to_nat i
  | L165 i => S (Z.to_nat i)
  | _ => if (rank l <? rank (L162 0))%nat then 0%nat else 16%nat
  end.

Definition todo3 (l : label) : nat :=
  match l with
  | L173 i => todo_down i
  | L176 i => Z.to_nat i
  | _ => if (rank l <? rank (L173 0))%nat then 16%nat else 0%nat
  end.

Definition todo4 (l : label) : nat :=
  match l with
  | L183 i => todo_down i
  | L186 i => Z.to_nat i
  | _ => if (rank l <? rank (L183 0))%nat then 16%nat else 0%nat
  end.

(** The range of the loop counters. *)
Definition idx_ok (l : label) : Prop :=
  match l with
  | L152 i | L162 i => 0 <= i <= 16
  | L173 i | L183 i => 0 <= i <= 15 \/ i = 2 ^ 32 - 1
  | L155 i | L165 i | L176 i | L186 i => 0 <= i <= 15
  | Lundef => False
  | _ => True
  end.

(** What the console holds at each program point. *)
Definition header : list byte :=
  ((str_clear_screen ++ str_banner_rule) ++ str_banner_title) ++ str_banner_rule_end.

Definition out159 (f : frame) : list byte := (header ++ str_ping_source) ++ srcdata1 f.
Definition out168 (f : frame) : list byte :=
  ((out159 f ++ CRLF) ++ str_ping_destination) ++ dstdata1 f.
Definition out180 (f : frame) : list byte :=
  ((out168 f ++ CRLF) ++ str_pong_source) ++ rev (srcdata2 f).
Definition out190 (f : frame) : list byte :=
  ((out180 f ++ CRLF) ++ str_pong_destination) ++ rev (dstdata2 f).

Definition report (f : frame) (l : label) : list byte :=
  match l with
  | L135 => str_clear_screen
  | L136 => str_clear_screen ++ str_banner_rule
  | L137 => (str_clear_screen ++ str_banner_rule) ++ str_banner_title
  | L144 | L147 | L150 => header
  | L152 i | L155 i =>
      (header ++ str_ping_source) ++ firstn (Z.to_nat i) (srcdata1 f)
  | L159 => out159 f
  | L160 => out159 f ++ CRLF
  | L162 i | L165 i =>
      ((out159 f ++ CRLF) ++ str_ping_destination) ++ firstn (Z.to_nat i) (dstdata1 f)
  | L168 => out168 f
  | L171 => out168 f ++ CRLF
  | L173 i | L176 i =>
      ((out168 f ++ CRLF) ++ str_pong_source) ++ rev (skipn (todo_down i) (srcdata2 f))
  | L180 => out180 f
  | L181 => out180 f ++ CRLF
  | L183 i | L186 i =>
      ((out180 f ++ CRLF) ++ str_pong_destination)
        ++ rev (skipn (todo_down i) (dstdata2 f))
  | L190 => out190 f
  | L193 => out190 f ++ CRLF
  | L195 => (out190 f ++ CRLF) ++ str_completed
  | _ => []
  end.

Definition cpu_ok (m : machine) : Prop :=
  idx_ok (pc m) /\
  (length (srcdata1 (locals m)) = 16%nat /\ length (dstdata1 (locals m)) = 16%nat /\
   length (srcdata2 (locals m)) = 16%nat /\ length (dstdata2 (locals m)) = 16%nat) /\
  console m = report (locals m) (pc m) /\
  firstn (done1 (pc m)) (srcdata1 (locals m)) = firstn (done1 (pc m)) src0 /\
  skipn (todo3 (pc m)) (srcdata2 (locals m)) = skipn (todo3 (pc m)) src0.

(** The invariant of every run. *)
Definition Inv (m : machine) : Prop :=
  wf_mem (mem m) /\ cfg_ok (stage (pc m)) (dma m) /\
  engine_ok (pc m) (mem m) (dma m) /\ cpu_ok m.


(** ** Schedules *)

(** The number of processor steps of a schedule. *)
Fixpoint cpu_steps (sched : list agent) : nat :=
  match sched with
  | [] => 0%nat
  | CPU :: t => S (cpu_steps t)
  | _ :: t => cpu_steps t
  end.

(** The program points at which the processor executes a statement along
    a schedule, in order; a processor step that only goes round a wait
    for the transmitter once more executes none. *)
Fixpoint cpu_pcs (sched : list agent) (s : system) : list label :=
  match sched with
  | [] => []
  | CPU :: t =>
      if spinning s then cpu_pcs t (step CPU s)
      else pc (core s) :: cpu_pcs t (step CPU s)
  | a :: t => cpu_pcs t (step a s)
  end.

(** The number of statements the processor executes along a schedule. *)
Definition moves (sched : list agent) (s : system) : nat :=
  length (cpu_pcs sched s).

(** The two descending loops: main.c:173 prints the pong source, main.c:183
    the pong destination. *)
Definition pong_loop (dst : bool) (i : Z) : label := if dst then L183 i else L173 i.
Definition pong_wait (dst : bool) (i : Z) : label := if dst then L186 i else L176 i.
Definition pong_loop_exit (dst : bool) : label := if dst then L190 else L180.

Definition in_pong_loop (l : label) : bool :=
  match l with
  | L173 _ | L176 _ | L183 _ | L186 _ => true
  | _ => false
  end.

(** The statements of one descending loop in the order of a complete
    execution: copy and send at 15, 14, ..., 0, then the guard at the
    wrapped index. *)
Definition pong_passes (dst : bool) : list label :=
  flat_map (fun i => [pong_loop dst i; pong_wait dst i])
    [15; 14; 13; 12; 11; 10; 9; 8; 7; 6; 5; 4; 3; 2; 1; 0]
  ++ [pong_loop dst (2 ^ 32 - 1)].

(** The program point after [n] processor steps when [cybsp_init] fails. *)
Definition boot_pc (n : nat) : label :=
  match n with
  | 0%nat => L102
  | 1%nat => L103
  | _ => L105
  end.

(** ** Console transcripts *)

(** The whole transcript of a run that reaches the idle loop, given the
    four 16-byte buffers that the loops print. *)
Definition transcript (ping_src ping_dst pong_src pong_dst : list byte) : list byte :=
  str_clear_screen ++
  str_banner_rule ++ str_banner_title ++ str_banner_rule_end ++
  str_ping_source ++ ping_src ++ CRLF ++
  str_ping_destination ++ ping_dst ++ CRLF ++
  str_pong_source ++ rev pong_src ++ CRLF ++
  str_pong_destination ++ rev pong_dst ++ CRLF ++
  str_completed.

Fixpoint until_lf (l : list byte) : list byte :=
  match l with
  | [] => []
  | b :: t => if Byte.eqb b LF then [] else b :: until_lf t
  end.

(** The last line of a transcript: the bytes between the last two line
    feeds, without the carriage return that ends the line. *)
Definition final_line (out : list byte) : list byte :=
  match rev out with
  | [] => []
  | b :: t =>
      let body := if Byte.eqb b LF then t else b :: t in
      let body := match body with
                  | c :: t' => if Byte.eqb c CR then t' else body
                  | [] => []
                  end in
      rev (until_lf body)
  end.

(** [n] bytes of a transcript from position [off] on. *)
Definition slice (off n : nat) (out : list byte) : list byte :=
  firstn n (skipn off out).

(** Where the four printed blocks start in the transcript. *)
Definition at_ping_source : nat := length header + length str_ping_source.
Definition at_ping_destination : nat :=
  at_ping_source + 16 + length CRLF + length str_ping_destination.
Definition at_pong_source : nat :=
  at_ping_destination + 16 + length CRLF + length str_pong_source.
Definition at_pong_destination : nat :=
  at_pong_source + 16 + length CRLF + length str_pong_destination.

(** A cell of a local copy agrees with the region it was read from, or
    holds the zero that was read before the engine wrote the cell. *)
Definition fresh_or_zero (loc reg : list byte) (j : nat) : Prop :=
  nth_error loc j = nth_error reg j \/ nth_error loc j = Some NUL.

Definition snap_ok (m : machine) : Prop :=
  (forall j, (j < done2 (pc m))%nat ->
     fresh_or_zero (dstdata1 (locals m)) (g_region1Dst (mem m)) j) /\
  (forall j, (todo4 (pc m) <= j < 16)%nat ->
     fresh_or_zero (dstdata2 (locals m)) (g_region2Dst (mem m)) j).

(** Stack content used where a concrete run is evaluated. *)
Definition g0 : garbage :=
  {| junk_result := 7;
     junk_srcdata1 := fun _ => xaa; junk_dstdata1 := fun _ => xbb;
     junk_srcdata2 := fun _ => xcc; junk_dstdata2 := fun _ => xdd |}.

(** Schedules used where a concrete run is evaluated.  [paced n]: [n]
    processor steps, the transmitter sending what it holds after each.
    [sched_engine_first]: [main] up to and including the trigger, then the
    34 engine steps of the chain.  [sched_report]: the poll, the whole
    chain, then the report.  [sched_cpu_only]: the engine never moves.
    [sched_race]: the engine runs its chain after the report has read the
    first cell of the ping destination.  [sched_race_pong]: the engine
    runs its chain after the report has read four cells of the pong
    destination. *)
Definition paced (n : nat) : list agent := concat (repeat [CPU; UART] n).
Definition sched_engine_first : list agent := repeat CPU 19 ++ repeat DMA 34.
Definition sched_report : list agent :=
  repeat CPU 20 ++ repeat DMA 34 ++ paced 150.
Definition sched_cpu_only : list agent := paced 200.
Definition sched_race : list agent :=
  repeat CPU 20 ++ paced 37 ++ repeat DMA 34 ++ paced 110.
Definition sched_race_pong : list agent :=
  repeat CPU 20 ++ paced 114 ++ repeat DMA 34 ++ paced 40.

(** Equality of byte strings, as a test. *)
Fixpoint bytes_eqb (a b : list byte) : bool :=
  match a, b with
  | [], [] => true
  | x :: a', y :: b' => Byte.eqb x y && bytes_eqb a' b'
  | _, _ => false
  end.

(** ** The control flow of the report *)

(** The successor of a program point from main.c:150 on.  There the
    control flow of [main] depends on the loop counters only. *)
Definition next_label (l : label) : label :=
  match l with
  | L150 => L152 0
  | L152 i => if i <? DMAC_TRANSFER_SIZE then L155 i else L159
  | L155 i => L152 (incr_u8 i)
  | L159 => L160
  | L160 => L162 0
  | L162 i => if i <? DMAC_TRANSFER_SIZE then L165 i else L168
  | L165 i => L162 (incr_u8 i)
  | L168 => L171
  | L171 => L173 15
  | L173 i => if i <? DMAC_TRANSFER_SIZE then L176 i else L180
  | L176 i => L173 (decr_u32 i)
  | L180 => L181
  | L181 => L183 15
  | L183 i => if i <? DMAC_TRANSFER_SIZE then L186 i else L190
  | L186 i => L183 (decr_u32 i)
  | L190 => L193
  | L193 => L195
  | l => l
  end.

(** The statements of the report in the order of a complete execution,
    from main.c:150 to main.c:193. *)
Definition report_trace : list label :=
  map (fun k => Nat.iter k next_label L150) (seq 0 141).

Definition is_idle (l : label) : bool :=
  match l with
  | L195 => true
  | _ => false
  end.

(** The two ascending loops: main.c:152 prints the ping source, main.c:162
    the ping destination. *)
Definition ping_loop (dst : bool) (i : Z) : label := if dst then L162 i else L152 i.
Definition ping_wait (dst : bool) (i : Z) : label := if dst then L165 i else L155 i.
Definition ping_loop_exit (dst : bool) : label := if dst then L168 else L159.

Definition in_ping_loop (l : label) : bool :=
  match l with
  | L152 _ | L155 _ | L162 _ | L165 _ => true
  | _ => false
  end.

(** The statements of one ascending loop in the order of a complete
    execution: copy and send at 0, 1, ..., 15, then the guard at 16. *)
Definition ping_passes (dst : bool) : list label :=
  flat_map (fun i => [ping_loop dst i; ping_wait dst i])
    [0; 1; 2; 3; 4; 5; 6; 7; 8; 9; 10; 11; 12; 13; 14; 15]
  ++ [ping_loop dst 16].

(** The program point after [n] processor steps when [cybsp_init]
    succeeds, up to the polling loop. *)
Definition startup_pc (n : nat) : label :=
  nth n [L102; L103; L109; L112; L115; L116; L117; L120; L121; L122;
         L125; L128; L131; L132; L134; L135; L136; L137; L144] L147.

(** From main.c:128 on the channel is enabled, from main.c:131 on the
    controller block as well. *)
Definition armed_ok (m : machine) : Prop :=
  ((rank L128 <= rank (pc m))%nat -> chan_enabled (dma m) = true) /\
  ((rank L131 <= rank (pc m))%nat -> block_enabled (dma m) = true).

(** The start of [main] went well: the assertion is not hit, and at the
    test of main.c:103 [result] holds what [cybsp_init] returned. *)
Definition boot_ok (m : machine) : Prop :=
  pc m <> L105 /\ (pc m = L103 -> result (locals m) = cybsp_init).

(** The chain is complete and every destination cell copied so far was
    read after its completion. *)
Definition settled (m : machine) : Prop :=
  d_response (pong (dma m)) = Done /\
  (forall j, (j < done2 (pc m))%nat ->
     nth_error (dstdata1 (locals m)) j = nth_error src0 j) /\
  (forall j, (todo4 (pc m) <= j < 16)%nat ->
     nth_error (dstdata2 (locals m)) j = nth_error src0 j).

(** The program has not yet begun to read the destination regions back
    (main.c:162). *)
Definition before_readback (l : label) : bool := (rank l <=? rank L160)%nat.

(** * Properties *)

(** ** Arrays *)

Lemma length_upd l k v : length (upd l k v) = length l.
Proof.
  revert k; induction l as [|h t IH]; intros [|k]; simpl; auto.
Qed.

Lemma nth_error_upd_eq l k v :
  (k < length l)%nat -> nth_error (upd l k v) k = Some v.
Proof.
  revert k; induction l as [|h t IH]; intros [|k] H; simpl in *; try lia; auto.
  apply IH; lia.
Qed.

Lemma nth_error_upd_neq l k j v :
  j <> k -> nth_error (upd l k v) j = nth_error l j.
Proof.
  revert k j; induction l as [|h t IH]; intros [|k] [|j] H; simpl; auto; try congruence.
Qed.

Lemma firstn_upd_snoc l k v :
  (k < length l)%nat -> firstn (S k) (upd l k v) = firstn k l ++ [v].
Proof.
  revert k; induction l as [|h t IH]; intros [|k] H; simpl in *; try lia; auto.
  f_equal. apply IH. lia.
Qed.

Lemma skipn_upd_cons l k v :
  (k < length l)%nat -> skipn k (upd l k v) = v :: skipn (S k) l.
Proof.
  revert k; induction l as [|h t IH]; intros [|k] H; simpl in *; try lia; auto.
  apply IH. lia.
Qed.

Lemma firstn_snoc_nth_error (l : list byte) k v :
  nth_error l k = Some v -> firstn (S k) l = firstn k l ++ [v].
Proof.
  revert k; induction l as [|h t IH]; intros [|k] H; simpl in *; try discriminate.
  - congruence.
  - f_equal. auto.
Qed.

Lemma skipn_cons_nth_error (l : list byte) k v :
  nth_error l k = Some v -> skipn k l = v :: skipn (S k) l.
Proof.
  revert k; induction l as [|h t IH]; intros [|k] H; simpl in *; try discriminate.
  - congruence.
  - auto.
Qed.

Lemma in_bounds_true l i :
  0 <= i < Z.of_nat (length l) -> in_bounds l i = true.
Proof.
  intros H. unfold in_bounds. apply andb_true_intro. split.
  - apply Z.leb_le; lia.
  - apply Z.ltb_lt; lia.
Qed.

Lemma in_bounds_inv l i :
  in_bounds l i = true -> 0 <= i < Z.of_nat (length l).
Proof.
  unfold in_bounds. intros H. apply andb_prop in H. destruct H as [H1 H2].
  apply Z.leb_le in H1. apply Z.ltb_lt in H2. lia.
Qed.

(** A copy within bounds succeeds, stores the byte it read and reads the
    same byte back. *)
Lemma firstn_upd_same l k v : firstn k (upd l k v) = firstn k l.
Proof.
  revert k; induction l as [|h t IH]; intros [|k]; simpl; auto.
  f_equal. apply IH.
Qed.

Lemma skipn_upd_after l k v : skipn (S k) (upd l k v) = skipn (S k) l.
Proof.
  revert k; induction l as [|h t IH]; intros [|k]; simpl; auto.
  apply IH.
Qed.

Lemma aget_in_bounds l i :
  0 <= i < Z.of_nat (length l) ->
  exists c, nth_error l (Z.to_nat i) = Some c /\ aget l i = Some c.
Proof.
  intros H. unfold aget. rewrite (in_bounds_true l i H).
  destruct (nth_error l (Z.to_nat i)) as [c|] eqn:E; [eauto|].
  apply nth_error_None in E. lia.
Qed.

(** A copy within bounds succeeds and stores the byte it read. *)
Lemma copy_cell_in_bounds src loc i :
  0 <= i < Z.of_nat (length src) -> 0 <= i < Z.of_nat (length loc) ->
  exists b, nth_error src (Z.to_nat i) = Some b /\
            copy_cell src loc i = Some (upd loc (Z.to_nat i) b).
Proof.
  intros Hs Hl. unfold copy_cell.
  destruct (aget_in_bounds src i Hs) as (b & Hb & ->).
  exists b. split; [exact Hb|].
  unfold aset. rewrite (in_bounds_true loc i Hl). reflexivity.
Qed.

(** A copy that succeeds was within the bounds of both arrays. *)
Lemma copy_cell_some src loc i r :
  copy_cell src loc i = Some r ->
  0 <= i < Z.of_nat (length src) /\ 0 <= i < Z.of_nat (length loc).
Proof.
  unfold copy_cell, aget, aset. intros H.
  destruct (in_bounds src i) eqn:E1; [|discriminate].
  destruct (nth_error src (Z.to_nat i)); [|discriminate].
  destruct (in_bounds loc i) eqn:E2; [|discriminate].
  split; apply in_bounds_inv; assumption.
Qed.

(** ** The transfer engine *)

Lemma length_src0 : length src0 = 16%nat.
Proof. reflexivity. Qed.

Lemma length_moved k : (k <= 16)%nat -> length (moved k) = 16%nat.
Proof.
  intros H. unfold moved.
  rewrite length_app, length_firstn, repeat_length, length_src0. lia.
Qed.

Lemma moved_all : moved 16 = src0.
Proof. reflexivity. Qed.

Lemma moved_none : moved 0 = c_array_zero 16.
Proof. reflexivity. Qed.

(** Moving byte [k] turns [moved k] into [moved (S k)]. *)
Lemma moved_upd k v :
  nth_error src0 k = Some v -> upd (moved k) k v = moved (S k).
Proof.
  intros H.
  do 16 (destruct k as [|k]; [simpl in H; injection H as <-; reflexivity|]).
  destruct k; discriminate.
Qed.

(** The cell the engine writes next still holds its initial zero. *)
Lemma moved_next_zero k : (k < 16)%nat -> nth_error (moved k) k = Some NUL.
Proof.
  intros H.
  do 16 (destruct k as [|k]; [reflexivity|]). lia.
Qed.

Lemma src0_defined k : (k < 16)%nat -> exists v, nth_error src0 k = Some v.
Proof.
  intros H. destruct (nth_error src0 k) as [v|] eqn:E; [eauto|].
  apply nth_error_None in E. rewrite length_src0 in E. lia.
Qed.

Lemma after_trigger_stage l : before_trigger l = false -> stage l = 6%nat.
Proof. destruct l; simpl; intros H; try discriminate; reflexivity. Qed.

Lemma dma_step_pc m : pc (dma_step m) = pc m.
Proof.
  unfold dma_step. destruct (active (dma m)) as [[d k]|]; [|reflexivity].
  destruct (k <? d_count (descr (dma m) d))%nat; [|reflexivity].
  destruct (d_src (descr (dma m) d)), (d_dst (descr (dma m) d)); try reflexivity.
  destruct (nth_error _ k); [|reflexivity].
  destruct (k <? _)%nat; reflexivity.
Qed.

Lemma dma_step_locals m : locals (dma_step m) = locals m.
Proof.
  unfold dma_step. destruct (active (dma m)) as [[d k]|]; [|reflexivity].
  destruct (k <? d_count (descr (dma m) d))%nat; [|reflexivity].
  destruct (d_src (descr (dma m) d)), (d_dst (descr (dma m) d)); try reflexivity.
  destruct (nth_error _ k); [|reflexivity].
  destruct (k <? _)%nat; reflexivity.
Qed.

Lemma dma_step_console m : console (dma_step m) = console m.
Proof.
  unfold dma_step. destruct (active (dma m)) as [[d k]|]; [|reflexivity].
  destruct (k <? d_count (descr (dma m) d))%nat; [|reflexivity].
  destruct (d_src (descr (dma m) d)), (d_dst (descr (dma m) d)); try reflexivity.
  destruct (nth_error _ k); [|reflexivity].
  destruct (k <? _)%nat; reflexivity.
Qed.

Lemma cpu_ok_dma_step m : cpu_ok m -> cpu_ok (dma_step m).
Proof.
  unfold cpu_ok. rewrite dma_step_pc, dma_step_locals, dma_step_console. auto.
Qed.

(** What one engine step does on a configured chain. *)
Lemma dma_step_configured m :
  wf_mem (mem m) -> cfg_ok 6 (dma m) -> engine_ok (pc m) (mem m) (dma m) ->
  wf_mem (mem (dma_step m)) /\ cfg_ok 6 (dma (dma_step m)) /\
  engine_ok (pc m) (mem (dma_step m)) (dma (dma_step m)).
Proof.
  intros (Hs1 & Hs2 & Hl1 & Hl2) Hc He.
  destruct Hc as (C1 & C2 & C3 & C4 & C5 & C6).
  destruct C1 as [C1 C1']; [lia|]. specialize (C2 ltac:(lia)). specialize (C3 ltac:(lia)).
  destruct C4 as [C4 C4']; [lia|]. specialize (C5 ltac:(lia)). specialize (C6 ltac:(lia)).
  unfold engine_ok in He. unfold dma_step.
  destruct (active (dma m)) as [[[|] k]|] eqn:Ea.
  - (* ping is executing *)
    destruct He as (Hb & Hk & Hp & Hq & Hd1 & Hd2). simpl descr.
    rewrite C1. destruct (Nat.ltb_spec k 16) as [Hlt|Hge].
    + rewrite C2, C3. simpl load. rewrite Hs1.
      destruct (src0_defined k Hlt) as [v Hv]. rewrite Hv.
      rewrite Hl1. destruct (Nat.ltb_spec k 16) as [_|]; [|lia].
      simpl. unfold wf_mem, cfg_ok, engine_ok; simpl.
      rewrite length_upd, Hd1, (moved_upd k v Hv), length_moved by lia.
      repeat split; auto; lia.
    + rewrite C1'. assert (k = 16%nat) by lia; subst k.
      simpl. unfold wf_mem, cfg_ok, engine_ok; simpl.
      repeat split; auto; lia.
  - (* pong is executing *)
    destruct He as (Hb & Hk & Hp & Hq & Hd1 & Hd2). simpl descr.
    rewrite C4. destruct (Nat.ltb_spec k 16) as [Hlt|Hge].
    + rewrite C5, C6. simpl load. rewrite Hs2.
      destruct (src0_defined k Hlt) as [v Hv]. rewrite Hv.
      rewrite Hl2. destruct (Nat.ltb_spec k 16) as [_|]; [|lia].
      simpl. unfold wf_mem, cfg_ok, engine_ok; simpl.
      rewrite length_upd, Hd2, (moved_upd k v Hv), length_moved by lia.
      repeat split; auto; lia.
    + rewrite C4'. assert (k = 16%nat) by lia; subst k.
      simpl. unfold wf_mem, cfg_ok, engine_ok; simpl.
      repeat split; auto; lia.
  - (* no descriptor is executing *)
    unfold wf_mem, cfg_ok, engine_ok. rewrite Ea.
    repeat split; auto.
Qed.

Lemma dma_step_idle m : active (dma m) = None -> dma_step m = m.
Proof. intros H. unfold dma_step. rewrite H. reflexivity. Qed.

Lemma engine_ok_before_trigger l r c :
  engine_ok l r c -> before_trigger l = true ->
  active c = None /\ d_response (ping c) = Pending /\ d_response (pong c) = Pending /\
  g_region1Dst r = moved 0 /\ g_region2Dst r = moved 0.
Proof.
  unfold engine_ok. intros H Hb.
  destruct (active c) as [[[|] k]|].
  - destruct H as (H & _). congruence.
  - destruct H as (H & _). congruence.
  - destruct (d_response (pong c)).
    + tauto.
    + destruct H as (H & _). congruence.
Qed.

Lemma Inv_dma_step m : Inv m -> Inv (dma_step m).
Proof.
  intros (Hm & Hc & He & Hp).
  destruct (before_trigger (pc m)) eqn:Hb.
  - destruct (engine_ok_before_trigger _ _ _ He Hb) as (Ha & _).
    rewrite (dma_step_idle m Ha). unfold Inv. auto.
  - rewrite (after_trigger_stage _ Hb) in Hc.
    destruct (dma_step_configured m Hm Hc He) as (Hm' & Hc' & He').
    unfold Inv. rewrite dma_step_pc, (after_trigger_stage _ Hb).
    auto using cpu_ok_dma_step.
Qed.

(** ** The processor *)

Lemma engine_ok_idle l r c :
  active c = None -> d_response (ping c) = Pending -> d_response (pong c) = Pending ->
  g_region1Dst r = moved 0 -> g_region2Dst r = moved 0 -> engine_ok l r c.
Proof.
  intros Ha Hp Hq H1 H2. unfold engine_ok. rewrite Ha, Hq. auto.
Qed.

Lemma engine_ok_label l l' r c :
  engine_ok l r c -> (before_trigger l = false -> before_trigger l' = false) ->
  engine_ok l' r c.
Proof.
  unfold engine_ok. intros H Hl.
  destruct (active c) as [[[|] k]|]; [| |destruct (d_response (pong c))];
    intuition auto.
Qed.

Lemma idx_up_exit i : 0 <= i <= 16 -> (i <? DMAC_TRANSFER_SIZE) = false -> i = 16.
Proof. unfold DMAC_TRANSFER_SIZE. intros H E. apply Z.ltb_ge in E. lia. Qed.

Lemma idx_down_exit i :
  0 <= i <= 15 \/ i = 2 ^ 32 - 1 -> (i <? DMAC_TRANSFER_SIZE) = false -> i = 2 ^ 32 - 1.
Proof. unfold DMAC_TRANSFER_SIZE. intros H E. apply Z.ltb_ge in E. lia. Qed.

Lemma idx_down_body i :
  0 <= i <= 15 \/ i = 2 ^ 32 - 1 -> (i <? DMAC_TRANSFER_SIZE) = true -> 0 <= i <= 15.
Proof. unfold DMAC_TRANSFER_SIZE. intros H E. apply Z.ltb_lt in E. lia. Qed.

Lemma incr_u8_small i : 0 <= i < 16 -> incr_u8 i = i + 1.
Proof. intros H. unfold incr_u8. apply Z.mod_small. lia. Qed.

(** Decrementing the 32-bit counter: one less, except that 0 wraps. *)
Lemma decr_u32_pos i : 0 < i <= 15 -> decr_u32 i = i - 1.
Proof. intros H. unfold decr_u32. apply Z.mod_small. lia. Qed.

Lemma decr_u32_zero : decr_u32 0 = 2 ^ 32 - 1.
Proof. reflexivity. Qed.

Lemma decr_u32_range i :
  0 <= i <= 15 -> 0 <= decr_u32 i <= 15 \/ decr_u32 i = 2 ^ 32 - 1.
Proof.
  intros H. destruct (Z.eq_dec i 0) as [->|Hn].
  - right. reflexivity.
  - left. rewrite decr_u32_pos; lia.
Qed.

Lemma todo_down_body i : 0 <= i <= 15 -> todo_down i = S (Z.to_nat i).
Proof.
  intros H. unfold todo_down, DMAC_TRANSFER_SIZE.
  destruct (Z.ltb_spec i 16); lia.
Qed.

Lemma todo_down_decr i : 0 <= i <= 15 -> todo_down (decr_u32 i) = Z.to_nat i.
Proof.
  intros H. destruct (Z.eq_dec i 0) as [->|Hn].
  - reflexivity.
  - rewrite decr_u32_pos by lia. rewrite todo_down_body by lia. lia.
Qed.

Lemma firstn_full (l : list byte) : length l = 16%nat -> firstn 16 l = l.
Proof. intros H. rewrite <- H. apply firstn_all. Qed.

Local Opaque header str_clear_screen str_banner_rule str_banner_title
  str_banner_rule_end str_ping_source str_ping_destination str_pong_source
  str_pong_destination str_completed CRLF src0 moved.

(** The processor never writes to the four regions. *)
Lemma cpu_step_mem m : mem (cpu_step m) = mem m.
Proof.
  unfold cpu_step.
  destruct (pc m); try reflexivity;
    repeat match goal with
           | |- context [if ?b then _ else _] => destruct b
           | |- context [match ?x with Some _ => _ | None => _ end] => destruct x
           | |- context [match ?x with pair _ _ => _ end] => destruct x
           end; try reflexivity.
  unfold Cy_TrigMux_SwTrigger. destruct (lifecycle (dma m)); reflexivity.
Qed.


Ltac branches :=
  repeat match goal with
         | |- context [if ?b then _ else _] => destruct b eqn:?
         | |- context [match ?x with Some _ => _ | None => _ end] => destruct x eqn:?
         | |- context [match ?x with pair _ _ => _ end] => destruct x eqn:?
         end.

Ltac use_stage :=
  repeat match goal with
         | H : (?a <= ?b)%nat -> _ |- _ =>
             first [specialize (H ltac:(lia)) | clear H]
         end.

(** Configuration and engine state across one statement of [main]. *)
Lemma cpu_step_engine m :
  cfg_ok (stage (pc m)) (dma m) -> engine_ok (pc m) (mem m) (dma m) ->
  cfg_ok (stage (pc (cpu_step m))) (dma (cpu_step m)) /\
  engine_ok (pc (cpu_step m)) (mem m) (dma (cpu_step m)).
Proof.
  intros Hc He.
  destruct (before_trigger (pc m)) eqn:Hb.
  - destruct (engine_ok_before_trigger _ _ _ He Hb) as (Ha & Hp & Hq & H1 & H2).
    destruct m as [l f r c out]; simpl in *.
    destruct l; try discriminate Hb; unfold cpu_step; simpl.
    20: { (* the trigger *)
      unfold Cy_TrigMux_SwTrigger, lifecycle; simpl. rewrite Ha, Hq.
      destruct (chan_enabled c && block_enabled c); simpl.
      - split; [assumption|]. unfold engine_ok; simpl.
        repeat split; auto; lia.
      - split; [assumption|]. apply engine_ok_idle; assumption. }
    all: branches; simpl.
    all: split;
      [unfold cfg_ok in *; simpl in *; destruct Hc as (? & ? & ? & ? & ? & ?);
       use_stage; repeat split; intros; try lia; intuition auto
      |apply engine_ok_idle; simpl; auto].
  - rewrite (after_trigger_stage _ Hb) in Hc.
    destruct m as [l f r c out]; simpl in *.
    destruct l; try discriminate Hb; unfold cpu_step; simpl; branches; simpl.
    all: split; [assumption|].
    all: try (eapply engine_ok_label; [eassumption|reflexivity]).
Qed.

Local Arguments firstn : simpl never.
Local Arguments skipn : simpl never.

(** Locals and console across one statement of [main]. *)
Lemma cpu_step_cpu_ok m : wf_mem (mem m) -> cpu_ok m -> cpu_ok (cpu_step m).
Proof.
  intros (Hs1 & Hs2 & Hd1 & Hd2) (Hi & (Hl1 & Hl2 & Hl3 & Hl4) & Ho & Hf1 & Hf3).
  destruct m as [l f r c out]; simpl in *.
  destruct l; unfold cpu_step; simpl in *.
  all: try (branches; unfold cpu_ok; simpl; subst out;
            repeat split; auto; fail).
  - (* L144 *)
    unfold Cy_TrigMux_SwTrigger. destruct (lifecycle _); unfold cpu_ok; simpl;
      subst out; repeat split; auto.
  - (* L150 *)
    unfold cpu_ok; simpl; subst out. rewrite app_nil_r. repeat split; auto; try lia.
  - (* L152 *)
    destruct (i <? DMAC_TRANSFER_SIZE) eqn:E.
    + apply Z.ltb_lt in E. unfold DMAC_TRANSFER_SIZE in E.
      destruct (copy_cell_in_bounds (g_region1Src r) (srcdata1 f) i)
        as (b & Hb & ->); [rewrite Hs1, length_src0; lia | rewrite Hl1; lia |].
      unfold cpu_ok; simpl; subst out.
      rewrite length_upd, firstn_upd_same, firstn_upd_snoc, Hf1 by lia.
      rewrite Hs1 in Hb.
      rewrite (firstn_snoc_nth_error src0 _ _ Hb).
      repeat split; auto; lia.
    + apply idx_up_exit in E; [subst i | assumption].
      unfold cpu_ok; simpl in *; subst out. unfold out159.
      rewrite firstn_full by assumption. repeat split; auto.
  - (* L155 *)
    destruct (aget_in_bounds (srcdata1 f) i) as (c0 & Hc & ->); [rewrite Hl1; lia|].
    rewrite incr_u8_small by lia.
    unfold cpu_ok; simpl; subst out.
    replace (Z.to_nat (i + 1)) with (S (Z.to_nat i)) by lia.
    repeat split; auto; try lia.
    rewrite (firstn_snoc_nth_error _ _ _ Hc), app_assoc. reflexivity.
  - (* L160 *)
    unfold cpu_ok; simpl; subst out. rewrite firstn_O, app_nil_r.
    repeat split; auto; lia.
  - (* L162 *)
    destruct (i <? DMAC_TRANSFER_SIZE) eqn:E.
    + apply Z.ltb_lt in E. unfold DMAC_TRANSFER_SIZE in E.
      destruct (copy_cell_in_bounds (g_region1Dst r) (dstdata1 f) i)
        as (b & Hb & ->); [rewrite Hd1; lia | rewrite Hl2; lia |].
      unfold cpu_ok; simpl; subst out.
      rewrite length_upd, firstn_upd_same.
      repeat split; auto; lia.
    + apply idx_up_exit in E; [subst i | assumption].
      unfold cpu_ok; simpl in *; subst out. unfold out168.
      rewrite firstn_full by assumption. repeat split; auto.
  - (* L165 *)
    destruct (aget_in_bounds (dstdata1 f) i) as (c0 & Hc & ->); [rewrite Hl2; lia|].
    rewrite incr_u8_small by lia.
    unfold cpu_ok; simpl; subst out.
    replace (Z.to_nat (i + 1)) with (S (Z.to_nat i)) by lia.
    repeat split; auto; try lia.
    rewrite (firstn_snoc_nth_error _ _ _ Hc), app_assoc. reflexivity.
  - (* L171 *)
    unfold cpu_ok; simpl; subst out.
    rewrite skipn_all2 by (rewrite Hl3; apply Nat.le_refl).
    simpl. rewrite app_nil_r. repeat split; auto; lia.
  - (* L173 *)
    destruct (i <? DMAC_TRANSFER_SIZE) eqn:E.
    + apply idx_down_body in E; [|assumption].
      destruct (copy_cell_in_bounds (g_region2Src r) (srcdata2 f) i)
        as (b & Hb & ->); [rewrite Hs2, length_src0; lia | rewrite Hl3; lia |].
      rewrite todo_down_body in * by lia.
      unfold cpu_ok; simpl; subst out.
      rewrite todo_down_body by lia.
      rewrite length_upd, skipn_upd_after, skipn_upd_cons by lia.
      rewrite Hs2 in Hb.
      rewrite (skipn_cons_nth_error src0 _ _ Hb), <- Hf3.
      repeat split; auto; lia.
    + apply idx_down_exit in E; [subst i | assumption].
      unfold cpu_ok; simpl in *; subst out. unfold out180.
      rewrite skipn_O in *. repeat split; auto.
  - (* L176 *)
    destruct (aget_in_bounds (srcdata2 f) i) as (c0 & Hc & ->); [rewrite Hl3; lia|].
    rewrite todo_down_body in * by lia.
    unfold cpu_ok; simpl; subst out.
    rewrite todo_down_decr by lia.
    repeat split; auto; try (apply decr_u32_range; assumption).
    rewrite (skipn_cons_nth_error _ _ _ Hc). simpl. rewrite app_assoc. reflexivity.
  - (* L181 *)
    unfold cpu_ok; simpl; subst out.
    rewrite skipn_all2 by (rewrite Hl4; apply Nat.le_refl).
    simpl. rewrite app_nil_r. repeat split; auto; lia.
  - (* L183 *)
    destruct (i <? DMAC_TRANSFER_SIZE) eqn:E.
    + apply idx_down_body in E; [|assumption].
      destruct (copy_cell_in_bounds (g_region2Dst r) (dstdata2 f) i)
        as (b & Hb & ->); [rewrite Hd2; lia | rewrite Hl4; lia |].
      rewrite todo_down_body in * by lia.
      unfold cpu_ok; simpl; subst out.
      rewrite todo_down_body by lia.
      rewrite length_upd, skipn_upd_after.
      repeat split; auto; lia.
    + apply idx_down_exit in E; [subst i | assumption].
      unfold cpu_ok; simpl in *; subst out. unfold out190.
      rewrite skipn_O in *. repeat split; auto.
  - (* L186 *)
    destruct (aget_in_bounds (dstdata2 f) i) as (c0 & Hc & ->); [rewrite Hl4; lia|].
    rewrite todo_down_body in * by lia.
    unfold cpu_ok; simpl; subst out.
    rewrite todo_down_decr by lia.
    repeat split; auto; try (apply decr_u32_range; assumption).
    rewrite (skipn_cons_nth_error _ _ _ Hc). simpl. rewrite app_assoc. reflexivity.
Qed.

(** ** The invariant holds along every run *)

Lemma Inv_cpu_step m : Inv m -> Inv (cpu_step m).
Proof.
  intros (Hm & Hc & He & Hp). unfold Inv. rewrite cpu_step_mem.
  destruct (cpu_step_engine m Hc He) as (Hc' & He').
  auto using cpu_step_cpu_ok.
Qed.

(** The machine of a system moves by a processor step, by an engine step,
    or not at all. *)
Lemma step_core a s :
  core (step a s) = core s \/
  (a = CPU /\ spinning s = false /\ core (step a s) = cpu_step (core s)) \/
  (a = DMA /\ core (step a s) = dma_step (core s)).
Proof.
  destruct a; simpl.
  - destruct (spinning s); auto.
  - auto.
  - auto.
Qed.

Lemma step_cpu_free s :
  waiting (pc (core s)) = false -> core (step CPU s) = cpu_step (core s).
Proof. intros H. simpl. unfold spinning. rewrite H. reflexivity. Qed.

(** A property of machines that both kinds of step keep holds along
    every run. *)
Lemma run_keeps (P : machine -> Prop) :
  (forall m, P m -> P (cpu_step m)) -> (forall m, P m -> P (dma_step m)) ->
  forall sched s, P (core s) -> P (core (run sched s)).
Proof.
  intros Hc Hd. induction sched as [|a t IH]; intros s H; simpl.
  - assumption.
  - apply IH.
    destruct (step_core a s) as [E|[(_ & _ & E)|(_ & E)]]; rewrite E; auto.
Qed.

Lemma Inv_run sched s : Inv (core s) -> Inv (core (run sched s)).
Proof. apply run_keeps; auto using Inv_cpu_step, Inv_dma_step. Qed.

Lemma char16_length junk : length (char16 junk) = 16%nat.
Proof. unfold char16. rewrite length_map, length_seq. reflexivity. Qed.

Lemma Inv_reset g : Inv (reset g).
Proof.
  unfold Inv, reset; simpl. repeat split; simpl; try lia;
    auto using char16_length.
Qed.

Lemma Inv_exec g sched : Inv (exec g sched).
Proof. apply Inv_run, Inv_reset. Qed.

Lemma run_app s1 s2 s : run (s1 ++ s2) s = run s2 (run s1 s).
Proof. unfold run. apply fold_left_app. Qed.

Lemma after_app g s1 s2 : after g (s1 ++ s2) = run s2 (after g s1).
Proof. unfold after. apply run_app. Qed.

Lemma after_snoc g sched a : after g (sched ++ [a]) = step a (after g sched).
Proof. rewrite after_app. reflexivity. Qed.

(** The machine after one more slot of the schedule. *)
Lemma exec_snoc g sched a :
  exec g (sched ++ [a]) = exec g sched \/
  (a = CPU /\ spinning (after g sched) = false /\
   exec g (sched ++ [a]) = cpu_step (exec g sched)) \/
  (a = DMA /\ exec g (sched ++ [a]) = dma_step (exec g sched)).
Proof. unfold exec. rewrite after_snoc. apply step_core. Qed.

Lemma exec_snoc_cpu g sched :
  waiting (pc (exec g sched)) = false ->
  exec g (sched ++ [CPU]) = cpu_step (exec g sched).
Proof. intros H. unfold exec. rewrite after_snoc. apply step_cpu_free, H. Qed.

Lemma exec_snoc_dma g sched : exec g (sched ++ [DMA]) = dma_step (exec g sched).
Proof. unfold exec. rewrite after_snoc. reflexivity. Qed.

Lemma exec_snoc_uart g sched : exec g (sched ++ [UART]) = exec g sched.
Proof. unfold exec. rewrite after_snoc. reflexivity. Qed.

(** * Regions, engine and transcript *)

Lemma c_array_init_exact lit : c_array_init (length (chars lit)) lit = chars lit.
Proof. unfold c_array_init. rewrite firstn_app, Nat.sub_diag, firstn_all. apply app_nil_r. Qed.

Lemma src0_no_terminator : ~ In NUL src0.
Proof.
  intros H. vm_compute in H.
  repeat (destruct H as [H|H]; [discriminate H|]). exact H.
Qed.

(** C10. Each source region is an array of exactly 16 bytes holding the 16
    characters of the literal ["PSoC4_HVMS-DMADC"] and no terminating NUL:
    the literal fills the array, so the terminator that a 17-byte array
    would receive is not stored.  The region length is the transfer size
    that the descriptors move and the bound of the print loops.  This
    holds in every state of every run. *)
Theorem source_regions_hold_literal_without_terminator g sched :
  let r := mem (exec g sched) in
  g_region1Src r = chars "PSoC4_HVMS-DMADC" /\
  g_region2Src r = chars "PSoC4_HVMS-DMADC" /\
  g_region1Src r = c_array_init 16 "PSoC4_HVMS-DMADC" /\
  length (g_region1Src r) = 16%nat /\ length (g_region2Src r) = 16%nat /\
  ~ In NUL (g_region1Src r) /\ ~ In NUL (g_region2Src r) /\
  c_array_init 17 "PSoC4_HVMS-DMADC" = chars "PSoC4_HVMS-DMADC" ++ [NUL] /\
  Z.of_nat (length (g_region1Src r)) = DMAC_TRANSFER_SIZE /\
  dataCount USER_DMA_ping_config = length (g_region1Src r) /\
  dataCount USER_DMA_pong_config = length (g_region2Src r).
Proof.
  destruct (Inv_exec g sched) as ((H1 & H2 & _) & _).
  cbv zeta. rewrite H1, H2.
  repeat split; try reflexivity; apply src0_no_terminator.
Qed.

(** C6. The source regions are never mutated: in every state of every run,
    whatever the interleaving of processor and engine steps, they hold
    what they held at reset. *)
Theorem source_regions_never_mutated g sched :
  g_region1Src (mem (exec g sched)) = g_region1Src (mem (reset g)) /\
  g_region2Src (mem (exec g sched)) = g_region2Src (mem (reset g)).
Proof.
  destruct (Inv_exec g sched) as ((H1 & H2 & _) & _).
  rewrite H1, H2. split; reflexivity.
Qed.

Lemma aget_zero i : 0 <= i < 16 -> aget (c_array_zero 16) i = Some NUL.
Proof.
  intros H. unfold aget. rewrite in_bounds_true by (simpl; lia).
  apply nth_error_repeat. lia.
Qed.

(** C5. Before the software trigger is issued, both destination regions
    read as zero at every one of their 16 indices. *)
Theorem destinations_zero_before_trigger g sched :
  before_trigger (pc (exec g sched)) = true ->
  g_region1Dst (mem (exec g sched)) = repeat NUL 16 /\
  g_region2Dst (mem (exec g sched)) = repeat NUL 16 /\
  forall i, 0 <= i < DMAC_TRANSFER_SIZE ->
    aget (g_region1Dst (mem (exec g sched))) i = Some NUL /\
    aget (g_region2Dst (mem (exec g sched))) i = Some NUL.
Proof.
  intros Hb. destruct (Inv_exec g sched) as (_ & _ & He & _).
  destruct (engine_ok_before_trigger _ _ _ He Hb) as (_ & _ & _ & H1 & H2).
  rewrite H1, H2, moved_none. repeat split; auto using aget_zero.
Qed.

Lemma engine_ok_pong_done l r c :
  engine_ok l r c -> d_response (pong c) = Done ->
  d_response (ping c) = Done /\ active c = None /\
  g_region1Dst r = src0 /\ g_region2Dst r = src0.
Proof.
  unfold engine_ok. intros H Hq.
  destruct (active c) as [[[|] k]|].
  - destruct H as (_ & _ & _ & H & _). congruence.
  - destruct H as (_ & _ & _ & H & _). congruence.
  - rewrite Hq in H. rewrite <- moved_all. tauto.
Qed.

(** C3. Once the completion flag of the last descriptor (pong) reads
    [Done], each destination region equals its source region, byte for
    byte at every one of the 16 indices. *)
Theorem copy_correct_when_pong_done g sched :
  Cy_DMAC_Descriptor_GetResponse CY_DMAC_DESCRIPTOR_PONG (exec g sched) = Done ->
  let r := mem (exec g sched) in
  g_region1Dst r = g_region1Src r /\ g_region2Dst r = g_region2Src r /\
  forall i, 0 <= i < DMAC_TRANSFER_SIZE ->
    (exists b, aget (g_region1Dst r) i = Some b /\ aget (g_region1Src r) i = Some b) /\
    (exists b, aget (g_region2Dst r) i = Some b /\ aget (g_region2Src r) i = Some b).
Proof.
  intros Hq. destruct (Inv_exec g sched) as ((H1 & H2 & _) & _ & He & _).
  destruct (engine_ok_pong_done _ _ _ He Hq) as (_ & _ & E1 & E2).
  cbv zeta. rewrite H1, H2, E1, E2. split; [reflexivity|]. split; [reflexivity|].
  intros i Hi. unfold DMAC_TRANSFER_SIZE in Hi.
  assert (exists b, aget src0 i = Some b) as [b Hb].
  { unfold aget. rewrite in_bounds_true by (rewrite length_src0; lia).
    apply src0_defined. lia. }
  split; exists b; auto.
Qed.

(** C7. The chain runs strictly in order: whenever the pong descriptor's
    completion flag reads [Done], or the pong descriptor is being
    executed, the ping descriptor's flag already reads [Done] and the whole
    ping copy is in place. *)
Theorem pong_never_done_before_ping g sched :
  let m := exec g sched in
  d_response (pong (dma m)) = Done \/
  (exists k, active (dma m) = Some (CY_DMAC_DESCRIPTOR_PONG, k)) ->
  d_response (ping (dma m)) = Done /\
  g_region1Dst (mem m) = g_region1Src (mem m).
Proof.
  cbv zeta. intros H.
  destruct (Inv_exec g sched) as ((H1 & _) & _ & He & _).
  rewrite H1. destruct H as [Hq|[k Hk]].
  - destruct (engine_ok_pong_done _ _ _ He Hq) as (Hp & _ & E1 & _). auto.
  - unfold engine_ok in He. rewrite Hk in He.
    destruct He as (_ & _ & Hp & _ & E1 & _). rewrite <- moved_all. auto.
Qed.

Lemma cpu_steps_app s1 s2 : cpu_steps (s1 ++ s2) = (cpu_steps s1 + cpu_steps s2)%nat.
Proof.
  induction s1 as [|[| |] t IH]; simpl; auto.
Qed.

Lemma boot_pc_free n : waiting (boot_pc n) = false.
Proof. destruct n as [|[|n]]; reflexivity. Qed.

(** The start of [main] when the board does not come up. *)
Lemma boot_failure g sched :
  cybsp_init <> CY_RSLT_SUCCESS ->
  let m := exec g sched in
  pc m = boot_pc (cpu_steps sched) /\ console m = [] /\ dma m = dmac_reset /\
  ((1 <= cpu_steps sched)%nat -> result (locals m) = cybsp_init).
Proof.
  intros Hne. cbv zeta. induction sched as [|a t IH] using rev_ind.
  - simpl. repeat split. intros H; inversion H.
  - rewrite cpu_steps_app.
    destruct IH as (Hpc & Hout & Hdma & Hres).
    destruct a; simpl cpu_steps.
    + (* a processor step *)
      rewrite exec_snoc_cpu by (rewrite Hpc; apply boot_pc_free).
      destruct (exec g t) as [l f r c out]; simpl in *.
      destruct (cpu_steps t) as [|[|n]]; simpl in Hpc; subst l; simpl.
      * repeat split; auto.
      * unfold cpu_step; simpl. rewrite Hres by lia.
        destruct (Z.eqb_spec cybsp_init CY_RSLT_SUCCESS) as [E|_]; [contradiction|].
        simpl. repeat split; auto.
      * unfold cpu_step; simpl. repeat split; auto. intros _. apply Hres. lia.
    + (* an engine step: the controller is in reset *)
      rewrite Nat.add_0_r, exec_snoc_dma.
      rewrite dma_step_idle by (rewrite Hdma; reflexivity). auto.
    + (* a transmitter step *)
      rewrite Nat.add_0_r, exec_snoc_uart. auto.
Qed.

Lemma boot_pc_halted n : (2 <= n)%nat -> boot_pc n = L105.
Proof. destruct n as [|[|n]]; intros H; try lia; reflexivity. Qed.

(** C8. If [cybsp_init] returns anything but [CY_RSLT_SUCCESS], the program
    reaches the hard assertion of main.c:105 with its second step and
    never leaves it; the console stays empty in every state of the run
    and the DMA controller is never touched.  [main] has no program point
    from which it would return a value. *)
Theorem init_failure_halts_silently g sched :
  cybsp_init <> CY_RSLT_SUCCESS ->
  let m := exec g sched in
  console m = [] /\
  pc m = boot_pc (cpu_steps sched) /\
  ((2 <= cpu_steps sched)%nat -> pc m = L105 /\ cpu_step m = m) /\
  dma m = dmac_reset.
Proof.
  intros Hne. cbv zeta.
  destruct (boot_failure g sched Hne) as (Hpc & Hout & Hdma & _).
  repeat split; auto.
  - rewrite Hpc. apply boot_pc_halted. assumption.
  - unfold cpu_step. rewrite Hpc, boot_pc_halted by assumption. reflexivity.
Qed.

(** ** Local copies of the destination regions *)

(** The engine only ever overwrites a destination cell that still holds
    its initial zero. *)
Lemma dma_step_cell m j :
  Inv m ->
  (nth_error (g_region1Dst (mem (dma_step m))) j = nth_error (g_region1Dst (mem m)) j \/
   nth_error (g_region1Dst (mem m)) j = Some NUL) /\
  (nth_error (g_region2Dst (mem (dma_step m))) j = nth_error (g_region2Dst (mem m)) j \/
   nth_error (g_region2Dst (mem m)) j = Some NUL).
Proof.
  intros ((Hs1 & Hs2 & Hl1 & Hl2) & Hc & He & _).
  destruct (before_trigger (pc m)) eqn:Hb.
  - destruct (engine_ok_before_trigger _ _ _ He Hb) as (Ha & _).
    rewrite (dma_step_idle m Ha). auto.
  - rewrite (after_trigger_stage _ Hb) in Hc.
    destruct Hc as (C1 & C2 & C3 & C4 & C5 & C6).
    destruct C1 as [C1 C1']; [lia|]. specialize (C2 ltac:(lia)). specialize (C3 ltac:(lia)).
    destruct C4 as [C4 C4']; [lia|]. specialize (C5 ltac:(lia)). specialize (C6 ltac:(lia)).
    unfold engine_ok in He. unfold dma_step.
    destruct (active (dma m)) as [[[|] k]|] eqn:Ea; [| |auto].
    + destruct He as (_ & Hk & _ & _ & Hd1 & _). simpl descr.
      rewrite C1. destruct (Nat.ltb_spec k 16) as [Hlt|Hge]; [|simpl; auto].
      rewrite C2, C3. simpl load. rewrite Hs1.
      destruct (src0_defined k Hlt) as [v Hv]. rewrite Hv.
      rewrite Hl1. destruct (Nat.ltb_spec k 16) as [_|]; [|lia].
      simpl. split; [|auto].
      destruct (Nat.eq_dec j k) as [->|Hne].
      * right. rewrite Hd1. apply moved_next_zero. assumption.
      * left. apply nth_error_upd_neq. assumption.
    + destruct He as (_ & Hk & _ & _ & _ & Hd2). simpl descr.
      rewrite C4. destruct (Nat.ltb_spec k 16) as [Hlt|Hge]; [|simpl; auto].
      rewrite C5, C6. simpl load. rewrite Hs2.
      destruct (src0_defined k Hlt) as [v Hv]. rewrite Hv.
      rewrite Hl2. destruct (Nat.ltb_spec k 16) as [_|]; [|lia].
      simpl. split; [auto|].
      destruct (Nat.eq_dec j k) as [->|Hne].
      * right. rewrite Hd2. apply moved_next_zero. assumption.
      * left. apply nth_error_upd_neq. assumption.
Qed.

Lemma fresh_or_zero_engine loc reg reg' j :
  fresh_or_zero loc reg j ->
  nth_error reg' j = nth_error reg j \/ nth_error reg j = Some NUL ->
  fresh_or_zero loc reg' j.
Proof.
  unfold fresh_or_zero. intros [H|H] [E|E]; try (right; congruence).
  left. congruence.
Qed.

Lemma snap_ok_dma_step m : Inv m -> snap_ok m -> snap_ok (dma_step m).
Proof.
  intros HI (H1 & H2). unfold snap_ok.
  rewrite dma_step_pc, dma_step_locals. split; intros j Hj.
  - eapply fresh_or_zero_engine; [apply H1, Hj | apply dma_step_cell, HI].
  - eapply fresh_or_zero_engine; [apply H2, Hj | apply dma_step_cell, HI].
Qed.

Lemma fresh_or_zero_copy loc reg n b j :
  nth_error reg n = Some b -> (n < length loc)%nat ->
  (j <> n -> fresh_or_zero loc reg j) ->
  fresh_or_zero (upd loc n b) reg j.
Proof.
  intros Hb Hn H. unfold fresh_or_zero in *.
  destruct (Nat.eq_dec j n) as [->|Hne].
  - left. rewrite nth_error_upd_eq by assumption. congruence.
  - rewrite nth_error_upd_neq by assumption. auto.
Qed.

Lemma snap_ok_cpu_step m : Inv m -> snap_ok m -> snap_ok (cpu_step m).
Proof.
  intros ((Hs1 & Hs2 & Hd1 & Hd2) & _ & _ & (Hi & (Hl1 & Hl2 & Hl3 & Hl4) & _)) Hsnap.
  destruct m as [l f r c out]; unfold snap_ok in Hsnap; simpl in *.
  destruct l; unfold cpu_step; simpl in *.
  all: try (branches; unfold snap_ok; simpl; exact Hsnap).
  - (* L144 *)
    unfold Cy_TrigMux_SwTrigger. destruct (lifecycle _); exact Hsnap.
  - (* L152 *)
    destruct (i <? DMAC_TRANSFER_SIZE) eqn:E; [|exact Hsnap].
    apply Z.ltb_lt in E. unfold DMAC_TRANSFER_SIZE in E.
    destruct (copy_cell_in_bounds (g_region1Src r) (srcdata1 f) i)
      as (b & Hb & ->); [rewrite Hs1, length_src0; lia | rewrite Hl1; lia |].
    exact Hsnap.
  - (* L155 *)
    destruct (aget_in_bounds (srcdata1 f) i) as (c0 & _ & ->); [rewrite Hl1; lia|].
    exact Hsnap.
  - (* L162 *)
    destruct Hsnap as (H1 & H2).
    destruct (i <? DMAC_TRANSFER_SIZE) eqn:E.
    + apply Z.ltb_lt in E. unfold DMAC_TRANSFER_SIZE in E.
      destruct (copy_cell_in_bounds (g_region1Dst r) (dstdata1 f) i)
        as (b & Hb & ->); [rewrite Hd1; lia | rewrite Hl2; lia |].
      unfold snap_ok; simpl. split; [|exact H2].
      intros j Hj. apply fresh_or_zero_copy; auto; [lia|].
      intros Hne. apply H1. lia.
    + apply idx_up_exit in E; [subst i | assumption].
      unfold snap_ok; simpl. auto.
  - (* L165 *)
    destruct Hsnap as (H1 & H2).
    destruct (aget_in_bounds (dstdata1 f) i) as (c0 & _ & ->); [rewrite Hl2; lia|].
    rewrite incr_u8_small by lia.
    unfold snap_ok; simpl. split; [|exact H2].
    intros j Hj. apply H1. lia.
  - (* L173 *)
    destruct (i <? DMAC_TRANSFER_SIZE) eqn:E; [|exact Hsnap].
    apply idx_down_body in E; [|assumption].
    destruct (copy_cell_in_bounds (g_region2Src r) (srcdata2 f) i)
      as (b & Hb & ->); [rewrite Hs2, length_src0; lia | rewrite Hl3; lia |].
    exact Hsnap.
  - (* L176 *)
    destruct (aget_in_bounds (srcdata2 f) i) as (c0 & _ & ->); [rewrite Hl3; lia|].
    exact Hsnap.
  - (* L183 *)
    destruct Hsnap as (H1 & H2).
    destruct (i <? DMAC_TRANSFER_SIZE) eqn:E.
    + apply idx_down_body in E; [|assumption].
      destruct (copy_cell_in_bounds (g_region2Dst r) (dstdata2 f) i)
        as (b & Hb & ->); [rewrite Hd2; lia | rewrite Hl4; lia |].
      rewrite todo_down_body in H2 by lia.
      unfold snap_ok; simpl. split; [exact H1|].
      intros j Hj. apply fresh_or_zero_copy; auto; [lia|].
      intros Hne. apply H2. lia.
    + apply idx_down_exit in E; [subst i | assumption].
      unfold snap_ok; simpl. intros. split; [exact H1|].
      intros j Hj. apply H2. change (todo_down (2 ^ 32 - 1)) with 0%nat. lia.
  - (* L186 *)
    destruct Hsnap as (H1 & H2).
    destruct (aget_in_bounds (dstdata2 f) i) as (c0 & _ & ->); [rewrite Hl4; lia|].
    unfold snap_ok; simpl. split; [exact H1|].
    rewrite todo_down_decr by lia. exact H2.
Qed.

Lemma snap_ok_exec g sched : snap_ok (exec g sched).
Proof.
  apply (run_keeps (fun m => Inv m /\ snap_ok m)).
  - intros m (HI & H). auto using Inv_cpu_step, snap_ok_cpu_step.
  - intros m (HI & H). auto using Inv_dma_step, snap_ok_dma_step.
  - split; [apply Inv_reset|]. split; simpl; intros j Hj; lia.
Qed.

(** ** The transcript *)

Lemma slice_exact (p x : list byte) : slice (length p) (length x) (p ++ x) = x.
Proof.
  unfold slice. rewrite skipn_app, skipn_all, Nat.sub_diag, skipn_O.
  simpl. apply firstn_all.
Qed.

Lemma slice_app_l off n (l r : list byte) :
  (off + n <= length l)%nat -> slice off n (l ++ r) = slice off n l.
Proof.
  intros H. unfold slice. rewrite skipn_app, firstn_app, length_skipn.
  replace (n - (length l - off))%nat with 0%nat by lia.
  rewrite firstn_O. apply app_nil_r.
Qed.

(** In the idle loop the local source copies are complete. *)
Lemma idle_locals m :
  Inv m -> pc m = L195 ->
  srcdata1 (locals m) = g_region1Src (mem m) /\
  srcdata2 (locals m) = g_region2Src (mem m) /\
  console m = (out190 (locals m) ++ CRLF) ++ str_completed.
Proof.
  intros ((Hs1 & Hs2 & _) & _ & _ & (_ & (Hl1 & _ & Hl3 & _) & Ho & Hf1 & Hf3)) Hpc.
  rewrite Hpc in *. simpl in Hf1, Hf3, Ho.
  change (firstn 16 src0) with src0 in Hf1. rewrite firstn_full in Hf1 by assumption.
  rewrite !skipn_O in Hf3. rewrite Hs1, Hs2. auto.
Qed.

Lemma idle_transcript m :
  Inv m -> pc m = L195 ->
  console m = transcript (g_region1Src (mem m)) (dstdata1 (locals m))
                (g_region2Src (mem m)) (dstdata2 (locals m)).
Proof.
  intros HI Hpc. destruct (idle_locals m HI Hpc) as (E1 & E2 & ->).
  unfold out190, out180, out168, out159, transcript.
  rewrite E1, E2.
  change header with
    (((str_clear_screen ++ str_banner_rule) ++ str_banner_title) ++ str_banner_rule_end).
  repeat rewrite <- app_assoc. reflexivity.
Qed.

Lemma final_line_completed (x : list byte) :
  final_line (x ++ CRLF ++ str_completed) = chars "- DMA transfer is completed. ".
Proof.
  unfold final_line. rewrite rev_app_distr.
  set (t := rev (CRLF ++ str_completed)). vm_compute in t. subst t.
  reflexivity.
Qed.

Lemma transcript_final_line a b c d :
  final_line (transcript a b c d) = chars "- DMA transfer is completed. ".
Proof.
  unfold transcript.
  repeat rewrite app_assoc. rewrite <- app_assoc.
  apply final_line_completed.
Qed.

Lemma slice_mid off n (p x : list byte) :
  length p = off -> length x = n -> slice off n (p ++ x) = x.
Proof. intros <- <-. apply slice_exact. Qed.

Lemma nth_error_rev16 (l : list byte) j :
  length l = 16%nat -> (j < 16)%nat -> nth_error (rev l) j = nth_error l (15 - j).
Proof.
  intros Hl Hj. rewrite nth_error_rev, Hl.
  destruct (Nat.ltb_spec j 16); [reflexivity|lia].
Qed.

Ltac len :=
  rewrite ?length_app, ?length_rev;
  repeat match goal with
         | H : length _ = 16%nat |- _ => rewrite H
         end.

Ltac block :=
  unfold out190, out180, out168, out159;
  repeat (rewrite slice_app_l by (len; apply Nat.leb_le; reflexivity));
  apply slice_mid; len; reflexivity.

(** X10. In the transcript of a run that reached the idle loop the four
    16-byte blocks stand at fixed places after their labels.  The PING
    source block is the source region, that is the known string; the PONG
    source block is the source region reversed.  The PING destination
    block is the local copy [dstdata1] in index order and the PONG
    destination block the local copy [dstdata2] reversed (printed position
    [j] is index [15 - j]); each cell of these copies is the byte the
    destination region now holds or the zero that was read before the
    engine wrote the cell. *)
Theorem pong_blocks_reversed_ping_blocks_forward g sched :
  pc (exec g sched) = L195 ->
  let m := exec g sched in
  let out := console m in
  (slice (at_ping_source - 14) 14 out = chars "PING source = " /\
   slice (at_ping_destination - 19) 19 out = chars "PING destination = " /\
   slice (at_pong_source - 14) 14 out = chars "PONG source = " /\
   slice (at_pong_destination - 19) 19 out = chars "PONG destination = ") /\
  (slice at_ping_source 16 out = g_region1Src (mem m) /\
   slice at_ping_destination 16 out = dstdata1 (locals m) /\
   slice at_pong_source 16 out = rev (g_region2Src (mem m)) /\
   slice at_pong_destination 16 out = rev (dstdata2 (locals m))) /\
  (slice at_ping_source 16 out = chars "PSoC4_HVMS-DMADC" /\
   slice at_pong_source 16 out = chars "CDAMD-SMVH_4CoSP") /\
  (forall j, (j < 16)%nat ->
     nth_error (slice at_ping_source 16 out) j = nth_error (g_region1Src (mem m)) j /\
     nth_error (slice at_ping_destination 16 out) j = nth_error (dstdata1 (locals m)) j /\
     nth_error (slice at_pong_source 16 out) j =
       nth_error (g_region2Src (mem m)) (15 - j) /\
     nth_error (slice at_pong_destination 16 out) j =
       nth_error (dstdata2 (locals m)) (15 - j)) /\
  (forall j, (j < 16)%nat ->
     fresh_or_zero (dstdata1 (locals m)) (g_region1Dst (mem m)) j /\
     fresh_or_zero (dstdata2 (locals m)) (g_region2Dst (mem m)) j).
Proof.
  intros Hpc. cbv zeta.
  pose proof (Inv_exec g sched) as HI.
  destruct (idle_locals _ HI Hpc) as (E1 & E2 & Ho).
  destruct (snap_ok_exec g sched) as (S1 & S2). rewrite Hpc in S1, S2.
  destruct HI as ((Hs1 & Hs2 & _) & _ & _ & (_ & (Hl1 & Hl2 & Hl3 & Hl4) & _)).
  rewrite Ho. rewrite <- E1, <- E2.
  assert (B1 : slice at_ping_source 16
                 ((out190 (locals (exec g sched)) ++ CRLF) ++ str_completed)
               = srcdata1 (locals (exec g sched))) by block.
  assert (B2 : slice at_ping_destination 16
                 ((out190 (locals (exec g sched)) ++ CRLF) ++ str_completed)
               = dstdata1 (locals (exec g sched))) by block.
  assert (B3 : slice at_pong_source 16
                 ((out190 (locals (exec g sched)) ++ CRLF) ++ str_completed)
               = rev (srcdata2 (locals (exec g sched)))) by block.
  assert (B4 : slice at_pong_destination 16
                 ((out190 (locals (exec g sched)) ++ CRLF) ++ str_completed)
               = rev (dstdata2 (locals (exec g sched)))) by block.
  rewrite B1, B2, B3, B4.
  split; [|split; [auto|split; [|split]]].
  - repeat split; block.
  - rewrite E1, E2, Hs1, Hs2. split; reflexivity.
  - intros j Hj. rewrite !nth_error_rev16 by assumption. auto.
  - intros j Hj. split; [apply S1 | apply S2]; simpl; lia.
Qed.

(** ** The polling loop *)

(** main.c:147 leaves the loop exactly when the flag it reads is not
    [CY_DMAC_DONE], and stays in it exactly when it is. *)
Lemma poll_loop_exit_condition m :
  pc m = L147 ->
  (Cy_DMAC_Descriptor_GetResponse CY_DMAC_DESCRIPTOR_PONG m = Pending ->
   cpu_step m = goto L150 m) /\
  (Cy_DMAC_Descriptor_GetResponse CY_DMAC_DESCRIPTOR_PONG m = Done ->
   cpu_step m = m).
Proof.
  intros Hpc. destruct m as [l f r c out]; simpl in *; subst l.
  unfold cpu_step, Cy_DMAC_Descriptor_GetResponse; simpl.
  split; intros ->; reflexivity.
Qed.

(** The report can only be entered from the polling loop, and only on a
    poll that reads the pong flag as pending. *)
Lemma enter_reporting m :
  reporting (pc m) = false -> reporting (pc (cpu_step m)) = true ->
  pc m = L147 /\
  Cy_DMAC_Descriptor_GetResponse CY_DMAC_DESCRIPTOR_PONG m = Pending.
Proof.
  destruct m as [l f r c out]. simpl pc at 1.
  destruct l; intros H; try discriminate H; unfold cpu_step; simpl.
  all: try (branches; simpl; intros H'; discriminate H').
  unfold Cy_DMAC_Descriptor_GetResponse; simpl.
  destruct (d_response (pong c)); simpl; intros H'; [auto | discriminate H'].
Qed.

(** The schedule of a run that is in the report, cut at the processor
    step that left the polling loop. *)
Lemma report_entry g sched :
  reporting (pc (exec g sched)) = true ->
  exists pre post,
    sched = pre ++ CPU :: post /\
    pc (exec g pre) = L147 /\
    Cy_DMAC_Descriptor_GetResponse CY_DMAC_DESCRIPTOR_PONG (exec g pre) = Pending /\
    pc (exec g (pre ++ [CPU])) = L150.
Proof.
  induction sched as [|a t IH] using rev_ind; intros H.
  - discriminate H.
  - destruct (reporting (pc (exec g t))) eqn:E.
    + destruct (IH eq_refl) as (pre & post & -> & H1 & H2 & H3).
      exists pre, (post ++ [a]). rewrite <- app_assoc. auto.
    + destruct (exec_snoc g t a) as [E'|[(-> & _ & E')|(-> & E')]].
      * rewrite E' in H. congruence.
      * rewrite E' in H. destruct (enter_reporting _ E H) as (H1 & H2).
        exists t, []. repeat split; auto.
        rewrite E'. destruct (poll_loop_exit_condition _ H1) as (Hgo & _).
        rewrite (Hgo H2). reflexivity.
      * rewrite E', dma_step_pc in H. congruence.
Qed.

(** X9. Every run that is in its reporting phase (main.c:150 or later)
    left the polling loop of main.c:147 by a processor step taken at a
    moment when the pong flag read pending; that step led to main.c:150. *)
Lemma reporting_after_pending_poll g sched :
  reporting (pc (exec g sched)) = true ->
  exists pre post,
    sched = pre ++ CPU :: post /\
    pc (exec g pre) = L147 /\
    Cy_DMAC_Descriptor_GetResponse CY_DMAC_DESCRIPTOR_PONG (exec g pre) = Pending /\
    pc (exec g (pre ++ [CPU])) = L150.
Proof. exact (report_entry g sched). Qed.

(** * Control flow of [main] *)

(** ** Memory safety *)

(** X1. No run reaches the undefined state: every array access of the four
    copy-and-print loops, to the regions and to the local arrays alike,
    stays within the 16 cells of its array, whatever the interleaving. *)
Theorem no_out_of_bounds_access g sched : pc (exec g sched) <> Lundef.
Proof.
  destruct (Inv_exec g sched) as (_ & _ & _ & (Hi & _)).
  intros E. rewrite E in Hi. exact Hi.
Qed.

(** ** The control flow of the report *)

Lemma cpu_step_next m :
  Inv m -> reporting (pc m) = true -> pc (cpu_step m) = next_label (pc m).
Proof.
  intros ((Hs1 & Hs2 & Hd1 & Hd2) & _ & _ & (Hi & (Hl1 & Hl2 & Hl3 & Hl4) & _)) Hr.
  destruct m as [l f r c out]; simpl in *.
  destruct l; try discriminate Hr; unfold cpu_step; simpl in *;
    try reflexivity; try contradiction.
  - destruct (i <? DMAC_TRANSFER_SIZE) eqn:E; [|reflexivity].
    apply Z.ltb_lt in E. unfold DMAC_TRANSFER_SIZE in E.
    destruct (copy_cell_in_bounds (g_region1Src r) (srcdata1 f) i)
      as (b & _ & ->); [rewrite Hs1, length_src0; lia | rewrite Hl1; lia |].
    reflexivity.
  - destruct (aget_in_bounds (srcdata1 f) i) as (c0 & _ & ->); [rewrite Hl1; lia|].
    reflexivity.
  - destruct (i <? DMAC_TRANSFER_SIZE) eqn:E; [|reflexivity].
    apply Z.ltb_lt in E. unfold DMAC_TRANSFER_SIZE in E.
    destruct (copy_cell_in_bounds (g_region1Dst r) (dstdata1 f) i)
      as (b & _ & ->); [rewrite Hd1; lia | rewrite Hl2; lia |].
    reflexivity.
  - destruct (aget_in_bounds (dstdata1 f) i) as (c0 & _ & ->); [rewrite Hl2; lia|].
    reflexivity.
  - destruct (i <? DMAC_TRANSFER_SIZE) eqn:E; [|reflexivity].
    apply idx_down_body in E; [|assumption].
    destruct (copy_cell_in_bounds (g_region2Src r) (srcdata2 f) i)
      as (b & _ & ->); [rewrite Hs2, length_src0; lia | rewrite Hl3; lia |].
    reflexivity.
  - destruct (aget_in_bounds (srcdata2 f) i) as (c0 & _ & ->); [rewrite Hl3; lia|].
    reflexivity.
  - destruct (i <? DMAC_TRANSFER_SIZE) eqn:E; [|reflexivity].
    apply idx_down_body in E; [|assumption].
    destruct (copy_cell_in_bounds (g_region2Dst r) (dstdata2 f) i)
      as (b & _ & ->); [rewrite Hd2; lia | rewrite Hl4; lia |].
    reflexivity.
  - destruct (aget_in_bounds (dstdata2 f) i) as (c0 & _ & ->); [rewrite Hl4; lia|].
    reflexivity.
Qed.

Lemma reporting_next l : reporting l = true -> reporting (next_label l) = true.
Proof.
  destruct l; intros H; try discriminate H; simpl; try reflexivity;
    destruct (i <? DMAC_TRANSFER_SIZE); reflexivity.
Qed.

Lemma step_cpu_spin s : spinning s = true -> step CPU s = s.
Proof. intros H. unfold step. rewrite H. reflexivity. Qed.

Lemma step_cpu_go s :
  spinning s = false -> core (step CPU s) = cpu_step (core s).
Proof. intros H. unfold step. rewrite H. reflexivity. Qed.

Lemma cpu_pcs_cpu t s :
  cpu_pcs (CPU :: t) s =
    if spinning s then cpu_pcs t s else pc (core s) :: cpu_pcs t (step CPU s).
Proof.
  simpl cpu_pcs. destruct (spinning s) eqn:E; reflexivity.
Qed.

Lemma moves_cpu t s :
  moves (CPU :: t) s =
    if spinning s then moves t s else S (moves t (step CPU s)).
Proof.
  unfold moves. rewrite cpu_pcs_cpu. destruct (spinning s); reflexivity.
Qed.

Lemma paced_succ n : paced (S n) = CPU :: UART :: paced n.
Proof. reflexivity. Qed.

Lemma uart_step_free s : spinning (step UART s) = false.
Proof.
  unfold spinning, Cy_SCB_UART_IsTxComplete. simpl.
  rewrite Nat.leb_refl. apply andb_false_r.
Qed.

(** When the transmitter gets a turn after each turn of the processor no
    wait holds the processor up: every turn executes a statement. *)
Lemma moves_paced n : forall s, spinning s = false -> moves (paced n) s = n.
Proof.
  induction n as [|n IH]; intros s H.
  - reflexivity.
  - rewrite paced_succ, moves_cpu, H.
    change (moves (UART :: paced n) (step CPU s))
      with (moves (paced n) (step UART (step CPU s))).
    rewrite IH by apply uart_step_free. reflexivity.
Qed.

Lemma free_not_spinning s : waiting (pc (core s)) = false -> spinning s = false.
Proof. intros H. unfold spinning. rewrite H. reflexivity. Qed.

(** In the report the program point after a schedule is fixed by the
    number of statements executed, and so are the statements. *)
Lemma report_run sched : forall s,
  Inv (core s) -> reporting (pc (core s)) = true ->
  pc (core (run sched s)) = Nat.iter (moves sched s) next_label (pc (core s)) /\
  cpu_pcs sched s =
    map (fun k => Nat.iter k next_label (pc (core s))) (seq 0 (moves sched s)).
Proof.
  induction sched as [|[| |] t IH]; intros s HI Hr.
  - split; reflexivity.
  - change (run (CPU :: t) s) with (run t (step CPU s)).
    rewrite moves_cpu, cpu_pcs_cpu.
    destruct (spinning s) eqn:Es.
    + rewrite (step_cpu_spin s Es). apply IH; assumption.
    + pose proof (cpu_step_next _ HI Hr) as E.
      pose proof (step_cpu_go s Es) as Ec.
      destruct (IH (step CPU s)) as (H1 & H2).
      { rewrite Ec. apply Inv_cpu_step, HI. }
      { rewrite Ec, E. apply reporting_next, Hr. }
      rewrite H1, H2, Ec, E. split.
      * rewrite Nat.iter_succ_r. reflexivity.
      * simpl. f_equal. rewrite <- seq_shift, map_map.
        apply map_ext. intros k. rewrite Nat.iter_succ_r. reflexivity.
  - change (run (DMA :: t) s) with (run t (step DMA s)).
    change (cpu_pcs (DMA :: t) s) with (cpu_pcs t (step DMA s)).
    change (moves (DMA :: t) s) with (moves t (step DMA s)).
    destruct (IH (step DMA s)) as (H1 & H2).
    { apply Inv_dma_step, HI. }
    { simpl. rewrite dma_step_pc. exact Hr. }
    replace (pc (core (step DMA s))) with (pc (core s)) in H1, H2
      by (simpl; rewrite dma_step_pc; reflexivity).
    exact (conj H1 H2).
  - exact (IH (step UART s) HI Hr).
Qed.

Lemma exec_app g s1 s2 : exec g (s1 ++ s2) = core (run s2 (after g s1)).
Proof. unfold exec. rewrite after_app. reflexivity. Qed.

Lemma iter_idle n : Nat.iter n next_label L195 = L195.
Proof. induction n as [|n IH]; simpl; [|rewrite IH]; reflexivity. Qed.

Lemma report_not_idle_before n :
  (n < 141)%nat -> is_idle (Nat.iter n next_label L150) = false.
Proof.
  intros H.
  assert (A : forallb (fun k => negb (is_idle (Nat.iter k next_label L150)))
                (seq 0 141) = true) by (vm_compute; reflexivity).
  rewrite forallb_forall in A.
  specialize (A n). rewrite in_seq in A.
  apply negb_true_iff, A. lia.
Qed.

Lemma report_idle_from n :
  (141 <= n)%nat -> Nat.iter n next_label L150 = L195.
Proof.
  intros H. replace n with ((n - 141) + 141)%nat by lia.
  rewrite Nat.iter_add.
  change (Nat.iter 141 next_label L150) with L195.
  apply iter_idle.
Qed.


(** ** The statements of a complete run *)

Lemma cpu_pcs_app s1 s2 : forall s,
  cpu_pcs (s1 ++ s2) s = cpu_pcs s1 s ++ cpu_pcs s2 (run s1 s).
Proof.
  induction s1 as [|[| |] t IH]; intros s; simpl.
  - reflexivity.
  - destruct (spinning s) eqn:E; rewrite IH; simpl; rewrite ?E; reflexivity.
  - apply IH.
  - apply IH.
Qed.

Lemma reporting_cpu_step m :
  reporting (pc m) = true -> reporting (pc (cpu_step m)) = true.
Proof.
  destruct m as [l f r c out]. simpl pc at 1.
  destruct l; intros H; try discriminate H; unfold cpu_step; simpl;
    branches; reflexivity.
Qed.

Lemma reporting_run sched s :
  reporting (pc (core s)) = true -> reporting (pc (core (run sched s))) = true.
Proof.
  apply (run_keeps (fun m => reporting (pc m) = true)).
  - apply reporting_cpu_step.
  - intros m H. rewrite dma_step_pc. exact H.
Qed.

(** What the processor executes before the report lies before the report
    in the text of [main]. *)
Lemma early_pcs sched : forall s,
  reporting (pc (core (run sched s))) = false ->
  Forall (fun l => reporting l = false) (cpu_pcs sched s).
Proof.
  induction sched as [|a t IH]; intros s H.
  - constructor.
  - assert (E : reporting (pc (core s)) = false).
    { destruct (reporting (pc (core s))) eqn:E; [|reflexivity].
      rewrite (reporting_run (a :: t) s E) in H. discriminate H. }
    destruct a; simpl in *.
    + destruct (spinning s); [apply IH, H|].
      constructor; [exact E | apply IH, H].
    + apply IH, H.
    + apply IH, H.
Qed.

Lemma idle_tail k : forall st,
  (141 <= st)%nat ->
  map (fun j => Nat.iter j next_label L150) (seq st k) = repeat L195 k.
Proof.
  induction k as [|k IH]; intros st H; simpl.
  - reflexivity.
  - rewrite report_idle_from by assumption. f_equal. apply IH. lia.
Qed.

(** A run that reaches the idle loop has executed: statements that lie
    before the report, the poll of main.c:147 once, every statement of
    the report in order, and then the idle loop. *)
Lemma complete_run_trace g sched :
  pc (exec g sched) = L195 ->
  exists early k,
    cpu_pcs sched (boot g) = early ++ L147 :: report_trace ++ repeat L195 k /\
    Forall (fun l => reporting l = false) early.
Proof.
  intros Hpc.
  destruct (report_entry g sched) as (pre & post & -> & H1 & H2 & H3).
  { rewrite Hpc. reflexivity. }
  assert (Hw : spinning (after g pre) = false).
  { unfold spinning. fold (exec g pre). rewrite H1. reflexivity. }
  exists (cpu_pcs pre (boot g)).
  rewrite cpu_pcs_app. fold (after g pre). rewrite cpu_pcs_cpu, Hw.
  fold (exec g pre). rewrite H1, <- after_snoc.
  replace (pre ++ CPU :: post) with ((pre ++ [CPU]) ++ post) in Hpc
    by (rewrite <- app_assoc; reflexivity).
  rewrite exec_app in Hpc.
  destruct (report_run post (after g (pre ++ [CPU]))) as (P1 & P2).
  { apply (Inv_exec g (pre ++ [CPU])). }
  { fold (exec g (pre ++ [CPU])). rewrite H3. reflexivity. }
  fold (exec g (pre ++ [CPU])) in P1, P2.
  rewrite H3 in P1, P2.
  set (n := moves post (after g (pre ++ [CPU]))) in *.
  assert (Hn : (141 <= n)%nat).
  { destruct (Nat.lt_ge_cases n 141) as [Hlt|Hge]; [|exact Hge].
    apply report_not_idle_before in Hlt. rewrite <- P1, Hpc in Hlt. discriminate Hlt. }
  exists (n - 141)%nat. split.
  - rewrite P2. do 2 f_equal.
    replace n with (141 + (n - 141))%nat at 1 by lia.
    rewrite seq_app, map_app, (idle_tail (n - 141) (0 + 141)) by lia.
    unfold report_trace. reflexivity.
  - apply early_pcs. fold (after g pre). fold (exec g pre). rewrite H1. reflexivity.
Qed.

Lemma filter_early (f : label -> bool) early :
  (forall l, f l = true -> reporting l = true) ->
  Forall (fun l => reporting l = false) early -> filter f early = [].
Proof.
  intros Hf H. induction H as [|l t Hl _ IH]; simpl; [reflexivity|].
  destruct (f l) eqn:E; [|exact IH].
  apply Hf in E. congruence.
Qed.

Lemma filter_idle_tail (f : label -> bool) k :
  f L195 = false -> filter f (repeat L195 k) = [].
Proof. intros H. induction k as [|k IH]; simpl; [|rewrite H]; auto. Qed.

Lemma filter_skip (f : label -> bool) x l :
  f x = false -> filter f (x :: l) = filter f l.
Proof. intros H. simpl. rewrite H. reflexivity. Qed.

Lemma complete_run_filter (f : label -> bool) g sched :
  (forall l, f l = true -> reporting l = true) -> f L147 = false -> f L195 = false ->
  pc (exec g sched) = L195 ->
  filter f (cpu_pcs sched (boot g)) = filter f report_trace.
Proof.
  intros Hf H147 H195 Hpc.
  destruct (complete_run_trace g sched Hpc) as (early & k & -> & He).
  rewrite filter_app, (filter_skip f L147 _ H147), filter_app.
  rewrite (filter_early f early Hf He), (filter_idle_tail f k H195).
  rewrite app_nil_r. reflexivity.
Qed.

Lemma in_pong_loop_reporting l : in_pong_loop l = true -> reporting l = true.
Proof. destruct l; intros H; try discriminate H; reflexivity. Qed.

Lemma in_ping_loop_reporting l : in_ping_loop l = true -> reporting l = true.
Proof. destruct l; intros H; try discriminate H; reflexivity. Qed.

Lemma loop_progress (inside : label -> bool) (head out : label) g pre post :
  reporting head = true ->
  forallb (fun k => inside (Nat.iter k next_label head)) (seq 0 33) = true ->
  Nat.iter 33 next_label head = out ->
  pc (exec g pre) = head ->
  ((moves post (after g pre) < 33)%nat -> inside (pc (exec g (pre ++ post))) = true) /\
  (moves post (after g pre) = 33%nat -> pc (exec g (pre ++ post)) = out).
Proof.
  intros Hr Hin Hout Hpc. rewrite exec_app.
  destruct (report_run post (after g pre) (Inv_exec g pre)) as (H & _).
  { fold (exec g pre). rewrite Hpc. exact Hr. }
  fold (exec g pre) in H. rewrite H, Hpc. split.
  - intros Hlt. rewrite forallb_forall in Hin. apply Hin, in_seq. lia.
  - intros ->. exact Hout.
Qed.

Lemma loop_paced (head out : label) g pre :
  reporting head = true -> waiting head = false ->
  Nat.iter 33 next_label head = out ->
  pc (exec g pre) = head ->
  pc (exec g (pre ++ paced 33)) = out.
Proof.
  intros Hr Hw Hout Hpc. rewrite exec_app.
  destruct (report_run (paced 33) (after g pre) (Inv_exec g pre)) as (H & _).
  { fold (exec g pre). rewrite Hpc. exact Hr. }
  fold (exec g pre) in H. rewrite H, Hpc, moves_paced; [exact Hout|].
  apply free_not_spinning. fold (exec g pre). rewrite Hpc. exact Hw.
Qed.

(** C9. Each of the two PONG print loops (main.c:173 and main.c:183)
    starts its 32-bit index at 15 and steps it down under the guard
    [i < 16].  In every run that reaches the idle loop the processor has
    executed, in the first loop and then in the second, the copy and the
    send at the indices 15, 14, ..., 0, each once and in this order, and
    then the guard at the wrapped index 2^32 - 1, where it fails: 16
    passes, every array index between 0 and 15.  From the head of either
    loop, under any interleaving, the program is still in the loop while
    fewer than 33 statements are executed (16 copies, 16 sends and the
    guard tests between them) and has left it with the 33rd; a pass is
    only ever held up in its wait for the transmitter, and when the
    transmitter gets a turn after each turn of the processor the loop is
    left after 33 turns. *)
Theorem pong_loops_run_sixteen_times g :
  (forall sched,
     pc (exec g sched) = L195 ->
     filter in_pong_loop (cpu_pcs sched (boot g))
       = pong_passes false ++ pong_passes true) /\
  (forall pre dst post,
     pc (exec g pre) = pong_loop dst 15 ->
     ((moves post (after g pre) < 33)%nat ->
        in_pong_loop (pc (exec g (pre ++ post))) = true) /\
     (moves post (after g pre) = 33%nat ->
        pc (exec g (pre ++ post)) = pong_loop_exit dst) /\
     pc (exec g (pre ++ paced 33)) = pong_loop_exit dst) /\
  decr_u32 0 = 2 ^ 32 - 1 /\
  (2 ^ 32 - 1 <? DMAC_TRANSFER_SIZE) = false.
Proof.
  split; [|split; [|split; reflexivity]].
  - intros sched Hpc.
    rewrite (complete_run_filter in_pong_loop g sched in_pong_loop_reporting
               eq_refl eq_refl Hpc).
    vm_compute. reflexivity.
  - intros pre dst post Hpc.
    assert (Hr : reporting (pong_loop dst 15) = true) by (destruct dst; reflexivity).
    assert (Hw : waiting (pong_loop dst 15) = false) by (destruct dst; reflexivity).
    assert (Hin : forallb (fun k => in_pong_loop (Nat.iter k next_label (pong_loop dst 15)))
                    (seq 0 33) = true) by (destruct dst; vm_compute; reflexivity).
    assert (Hout : Nat.iter 33 next_label (pong_loop dst 15) = pong_loop_exit dst)
      by (destruct dst; vm_compute; reflexivity).
    destruct (loop_progress in_pong_loop _ _ g pre post Hr Hin Hout Hpc) as (P1 & P2).
    split; [exact P1|]. split; [exact P2|].
    exact (loop_paced _ _ g pre Hr Hw Hout Hpc).
Qed.

(** X3. Each of the two PING print loops (main.c:152 and main.c:162)
    starts its 8-bit index at 0 and steps it up under the guard [i < 16].
    In every run that reaches the idle loop the processor has executed,
    in the first loop and then in the second, the copy and the send at the
    indices 0, 1, ..., 15, each once and in this order, and then the guard
    at 16, where it fails: the 8-bit counter never wraps.  From the head
    of either loop, under any interleaving, the program is still in the
    loop while fewer than 33 statements are executed and has left it with
    the 33rd; when the transmitter gets a turn after each turn of the
    processor the loop is left after 33 turns. *)
Theorem ping_loops_run_sixteen_times g :
  (forall sched,
     pc (exec g sched) = L195 ->
     filter in_ping_loop (cpu_pcs sched (boot g))
       = ping_passes false ++ ping_passes true) /\
  (forall pre dst post,
     pc (exec g pre) = ping_loop dst 0 ->
     ((moves post (after g pre) < 33)%nat ->
        in_ping_loop (pc (exec g (pre ++ post))) = true) /\
     (moves post (after g pre) = 33%nat ->
        pc (exec g (pre ++ post)) = ping_loop_exit dst) /\
     pc (exec g (pre ++ paced 33)) = ping_loop_exit dst).
Proof.
  split.
  - intros sched Hpc.
    rewrite (complete_run_filter in_ping_loop g sched in_ping_loop_reporting
               eq_refl eq_refl Hpc).
    vm_compute. reflexivity.
  - intros pre dst post Hpc.
    assert (Hr : reporting (ping_loop dst 0) = true) by (destruct dst; reflexivity).
    assert (Hw : waiting (ping_loop dst 0) = false) by (destruct dst; reflexivity).
    assert (Hin : forallb (fun k => in_ping_loop (Nat.iter k next_label (ping_loop dst 0)))
                    (seq 0 33) = true) by (destruct dst; vm_compute; reflexivity).
    assert (Hout : Nat.iter 33 next_label (ping_loop dst 0) = ping_loop_exit dst)
      by (destruct dst; vm_compute; reflexivity).
    destruct (loop_progress in_ping_loop _ _ g pre post Hr Hin Hout Hpc) as (P1 & P2).
    split; [exact P1|]. split; [exact P2|].
    exact (loop_paced _ _ g pre Hr Hw Hout Hpc).
Qed.

(** ** The start of [main] on a good board *)

Lemma boot_ok_cpu_step m :
  cybsp_init = CY_RSLT_SUCCESS -> boot_ok m -> boot_ok (cpu_step m).
Proof.
  intros Hok (Hh & Hr).
  destruct m as [l f r c out]; simpl in *.
  destruct l; unfold cpu_step, boot_ok; simpl; branches; simpl;
    try (split; [discriminate | intros E; try discriminate E; reflexivity]).
  - (* main.c:103, the test fails: impossible *)
    rewrite Hr in Heqb by reflexivity.
    rewrite Hok, Z.eqb_refl in Heqb. discriminate Heqb.
  - (* main.c:105 *)
    contradiction.
Qed.

Lemma boot_ok_dma_step m : boot_ok m -> boot_ok (dma_step m).
Proof. unfold boot_ok. rewrite dma_step_pc, dma_step_locals. auto. Qed.

Lemma boot_ok_exec g sched : cybsp_init = CY_RSLT_SUCCESS -> boot_ok (exec g sched).
Proof.
  intros Hok. apply (run_keeps boot_ok).
  - intros m. apply boot_ok_cpu_step, Hok.
  - apply boot_ok_dma_step.
  - split; [discriminate | intros E; discriminate E].
Qed.

Lemma startup_free k : waiting (startup_pc k) = false.
Proof. do 20 (destruct k as [|k]; [reflexivity|]). reflexivity. Qed.

Lemma startup_step g sched :
  cybsp_init = CY_RSLT_SUCCESS ->
  (cpu_steps sched <= 19)%nat -> pc (exec g sched) = startup_pc (cpu_steps sched).
Proof.
  intros Hok. induction sched as [|a t IH] using rev_ind; intros Hn.
  - reflexivity.
  - rewrite cpu_steps_app in Hn. rewrite cpu_steps_app.
    specialize (IH ltac:(lia)).
    destruct (boot_ok_exec g t Hok) as (_ & Hr).
    destruct a; simpl in *.
    + rewrite exec_snoc_cpu by (rewrite IH; apply startup_free).
      destruct (exec g t) as [l f r c out]; simpl in *.
      assert (Hlt : (cpu_steps t < 19)%nat) by lia.
      remember (cpu_steps t) as k eqn:Ek. clear Ek Hn.
      do 19 (destruct k as [|k];
             [simpl in IH; subst l; unfold cpu_step; simpl;
              first [reflexivity
                    |rewrite Hr by reflexivity; rewrite Hok, Z.eqb_refl; reflexivity]
             |]).
      lia.
    + rewrite exec_snoc_dma, Nat.add_0_r, dma_step_pc. exact IH.
    + rewrite exec_snoc_uart, Nat.add_0_r. exact IH.
Qed.

Lemma before_trigger_back m :
  boot_ok m -> before_trigger (pc (cpu_step m)) = true ->
  before_trigger (pc m) = true.
Proof.
  intros (Hh & _). destruct m as [l f r c out]; simpl in *.
  destruct l; try reflexivity; unfold cpu_step; simpl;
    branches; simpl; intros Hb; try discriminate Hb.
Qed.

(** X4. When [cybsp_init] returns [CY_RSLT_SUCCESS] the assertion of
    main.c:105 is never reached, in any run; the first 19 processor steps
    walk through the set-up statements of main.c:102-144 in order, and
    with the 19th step the trigger has been issued. *)
Theorem init_success_reaches_trigger g sched :
  cybsp_init = CY_RSLT_SUCCESS ->
  pc (exec g sched) <> L105 /\
  ((cpu_steps sched <= 19)%nat -> pc (exec g sched) = startup_pc (cpu_steps sched)) /\
  (before_trigger (pc (exec g sched)) = true <-> (cpu_steps sched < 19)%nat).
Proof.
  intros Hok. split; [apply (boot_ok_exec g sched Hok)|].
  split; [apply startup_step, Hok|].
  split.
  - intros Hb. destruct (Nat.lt_ge_cases (cpu_steps sched) 19) as [H|H]; [exact H|].
    exfalso. revert Hb H. induction sched as [|a t IH] using rev_ind; intros Hb H.
    + simpl in H. lia.
    + rewrite cpu_steps_app in H.
      destruct a; simpl in H.
      * destruct (Nat.eq_dec (cpu_steps t) 18) as [E|E].
        -- pose proof (startup_step g (t ++ [CPU]) Hok) as P.
           rewrite cpu_steps_app, E in P. simpl in P.
           rewrite P in Hb by lia. discriminate Hb.
        -- destruct (exec_snoc g t CPU) as [E'|[(_ & _ & E')|(D & _)]];
             [| |discriminate D]; rewrite E' in Hb.
           ++ apply IH; [exact Hb | lia].
           ++ apply IH; [|lia].
              apply before_trigger_back; [apply boot_ok_exec, Hok | exact Hb].
      * rewrite exec_snoc_dma, dma_step_pc in Hb. apply IH; [exact Hb | lia].
      * rewrite exec_snoc_uart in Hb. apply IH; [exact Hb | lia].
  - intros H. rewrite startup_step by (assumption || lia).
    remember (cpu_steps sched) as k eqn:Ek. clear Ek.
    do 19 (destruct k as [|k]; [reflexivity|]).
    lia.
Qed.

(** ** The trigger *)

Lemma dma_step_flags m :
  chan_enabled (dma (dma_step m)) = chan_enabled (dma m) /\
  block_enabled (dma (dma_step m)) = block_enabled (dma m).
Proof.
  unfold dma_step. destruct (active (dma m)) as [[d k]|]; [|auto].
  destruct (k <? d_count (descr (dma m) d))%nat.
  - destruct (d_src (descr (dma m) d)), (d_dst (descr (dma m) d)); auto.
    destruct (nth_error _ k); auto.
    destruct (k <? _)%nat; auto.
  - destruct d; auto.
Qed.

Lemma armed_ok_cpu_step m : armed_ok m -> armed_ok (cpu_step m).
Proof.
  intros (H1 & H2).
  destruct m as [l f r c out]; simpl in *.
  destruct l; unfold cpu_step; simpl in *.
  all: try (unfold Cy_TrigMux_SwTrigger; branches; unfold armed_ok; simpl;
            split; intros;
            first [lia | reflexivity | apply H1; lia | apply H2; lia]).
  unfold Cy_TrigMux_SwTrigger. destruct (lifecycle _); unfold armed_ok; simpl;
    split; intros; first [apply H1; lia | apply H2; lia].
Qed.

Lemma armed_ok_dma_step m : armed_ok m -> armed_ok (dma_step m).
Proof.
  intros (H1 & H2). unfold armed_ok. rewrite dma_step_pc.
  destruct (dma_step_flags m) as (-> & ->). auto.
Qed.

Lemma armed_ok_exec g sched : armed_ok (exec g sched).
Proof.
  apply (run_keeps armed_ok armed_ok_cpu_step armed_ok_dma_step).
  split; simpl; intros H; lia.
Qed.

(** X5. When the program stands at the trigger of main.c:144 the set-up
    of main.c:112-137 is complete: ping is bound from [g_region1Src] to
    [g_region1Dst], pong from [g_region2Src] to [g_region2Dst], both flags
    are pending, channel and controller are enabled, no descriptor is
    executing and the banner is on the console.  The trigger therefore
    takes effect: the next processor step makes ping the executing
    descriptor, at its first byte. *)
Theorem trigger_starts_configured_chain g sched :
  pc (exec g sched) = L144 ->
  let m := exec g sched in
  (d_src (ping (dma m)) = Some Region1Src /\
   d_dst (ping (dma m)) = Some Region1Dst /\
   d_src (pong (dma m)) = Some Region2Src /\
   d_dst (pong (dma m)) = Some Region2Dst) /\
  (d_response (ping (dma m)) = Pending /\ d_response (pong (dma m)) = Pending) /\
  (chan_enabled (dma m) = true /\ block_enabled (dma m) = true /\
   active (dma m) = None) /\
  console m = header /\
  pc (cpu_step m) = L147 /\
  active (dma (cpu_step m)) = Some (CY_DMAC_DESCRIPTOR_PING, 0%nat).
Proof.
  intros Hpc. cbv zeta.
  destruct (Inv_exec g sched) as (_ & Hc & He & (_ & _ & Ho & _)).
  destruct (armed_ok_exec g sched) as (A1 & A2).
  rewrite Hpc in *. simpl in Hc, Ho, A1, A2.
  destruct (engine_ok_before_trigger _ _ _ He eq_refl) as (Ha & Hp & Hq & _).
  destruct Hc as (_ & C2 & C3 & _ & C5 & C6).
  specialize (A1 ltac:(lia)). specialize (A2 ltac:(lia)).
  specialize (C2 ltac:(lia)). specialize (C3 ltac:(lia)).
  specialize (C5 ltac:(lia)). specialize (C6 ltac:(lia)).
  repeat split; auto.
  - unfold cpu_step. rewrite Hpc. reflexivity.
  - unfold cpu_step. rewrite Hpc. simpl.
    unfold Cy_TrigMux_SwTrigger, lifecycle. rewrite Ha, Hq, A1, A2. reflexivity.
Qed.

(** ** The polling loop, once the chain is complete *)

Lemma engine_ok_done_idle l r c :
  engine_ok l r c -> d_response (pong c) = Done ->
  active c = None /\ before_trigger l = false.
Proof.
  unfold engine_ok. intros H Hq.
  destruct (active c) as [[[|] k]|].
  - destruct H as (_ & _ & _ & H & _). congruence.
  - destruct H as (_ & _ & _ & H & _). congruence.
  - rewrite Hq in H. tauto.
Qed.

(** X6. If the pong flag reads [Done] while the program stands at the
    polling loop of main.c:147, the run is over: no later step of the
    processor or of the engine changes anything, the program stays at
    main.c:147 and the console holds the banner and nothing else. *)
Theorem poll_loop_spins_once_done g pre post :
  pc (exec g pre) = L147 ->
  Cy_DMAC_Descriptor_GetResponse CY_DMAC_DESCRIPTOR_PONG (exec g pre) = Done ->
  exec g (pre ++ post) = exec g pre /\
  pc (exec g (pre ++ post)) = L147 /\
  console (exec g (pre ++ post)) = header.
Proof.
  intros Hpc Hq.
  assert (E : exec g (pre ++ post) = exec g pre).
  { rewrite exec_app.
    apply (run_keeps (fun m => m = exec g pre)); [| |reflexivity].
    - intros m ->. apply (poll_loop_exit_condition _ Hpc), Hq.
    - intros m ->.
      destruct (Inv_exec g pre) as (_ & _ & He & _).
      destruct (engine_ok_done_idle _ _ _ He Hq) as (Ha & _).
      apply dma_step_idle, Ha. }
  rewrite E. split; [reflexivity|]. split; [exact Hpc|].
  destruct (Inv_exec g pre) as (_ & _ & _ & (_ & _ & Ho & _)).
  rewrite Ho, Hpc. reflexivity.
Qed.

(** ** The idle loop *)

(** X7. Once the program is in the idle loop of main.c:195 it stays
    there and prints nothing more: the console keeps the 344 bytes of
    the report, and the automatic variables keep their content. *)
Theorem idle_loop_is_final g pre post :
  pc (exec g pre) = L195 ->
  pc (exec g (pre ++ post)) = L195 /\
  console (exec g (pre ++ post)) = console (exec g pre) /\
  locals (exec g (pre ++ post)) = locals (exec g pre) /\
  length (console (exec g pre)) = 344%nat.
Proof.
  intros Hpc.
  assert (E : pc (exec g (pre ++ post)) = L195 /\
              console (exec g (pre ++ post)) = console (exec g pre) /\
              locals (exec g (pre ++ post)) = locals (exec g pre)).
  { rewrite exec_app.
    apply (run_keeps (fun m => pc m = L195 /\
                               console m = console (exec g pre) /\
                               locals m = locals (exec g pre))); [| |auto].
    - intros m (I1 & I2 & I3).
      assert (S : cpu_step m = m) by (unfold cpu_step; rewrite I1; reflexivity).
      rewrite S. auto.
    - intros m (I1 & I2 & I3).
      rewrite dma_step_pc, dma_step_console, dma_step_locals. auto. }
  destruct E as (E1 & E2 & E3). repeat split; auto.
  destruct (Inv_exec g pre) as (_ & _ & _ & (_ & (Hl1 & Hl2 & Hl3 & Hl4) & Ho & _)).
  rewrite Ho, Hpc. simpl. unfold out190, out180, out168, out159.
  len. reflexivity.
Qed.

(** ** The wait for the transmitter *)



(** ** The report after a complete transfer *)

Lemma settled_copy loc n b j :
  nth_error src0 n = Some b -> (n < length loc)%nat ->
  (j <> n -> nth_error loc j = nth_error src0 j) ->
  nth_error (upd loc n b) j = nth_error src0 j.
Proof.
  intros Hb Hn H. destruct (Nat.eq_dec j n) as [->|Hne].
  - rewrite nth_error_upd_eq by assumption. congruence.
  - rewrite nth_error_upd_neq by assumption. auto.
Qed.

Lemma settled_cpu_step m : Inv m -> settled m -> settled (cpu_step m).
Proof.
  intros HI (Hq & H1 & H2).
  pose proof HI as ((Hs1 & Hs2 & Hd1 & Hd2) & _ & He & (Hi & (Hl1 & Hl2 & Hl3 & Hl4) & _)).
  destruct (engine_ok_done_idle _ _ _ He Hq) as (_ & Hb).
  destruct (engine_ok_pong_done _ _ _ He Hq) as (_ & _ & E1 & E2).
  destruct m as [l f r c out]; simpl in *.
  destruct l; try discriminate Hb; unfold cpu_step; simpl in *.
  all: try (branches; unfold settled; simpl; auto; fail).
  - (* L152 *)
    destruct (i <? DMAC_TRANSFER_SIZE) eqn:E; [|unfold settled; simpl; auto].
    apply Z.ltb_lt in E. unfold DMAC_TRANSFER_SIZE in E.
    destruct (copy_cell_in_bounds (g_region1Src r) (srcdata1 f) i)
      as (b & _ & ->); [rewrite Hs1, length_src0; lia | rewrite Hl1; lia |].
    unfold settled; simpl; auto.
  - (* L155 *)
    destruct (aget_in_bounds (srcdata1 f) i) as (c0 & _ & ->); [rewrite Hl1; lia|].
    unfold settled; simpl. repeat split; auto; intros; lia.
  - (* L162 *)
    destruct (i <? DMAC_TRANSFER_SIZE) eqn:E.
    + apply Z.ltb_lt in E. unfold DMAC_TRANSFER_SIZE in E.
      destruct (copy_cell_in_bounds (g_region1Dst r) (dstdata1 f) i)
        as (b & Hb' & ->); [rewrite Hd1; lia | rewrite Hl2; lia |].
      rewrite E1 in Hb'.
      unfold settled; simpl. repeat split; auto.
      intros j Hj. apply settled_copy; auto; [lia|].
      intros Hne. apply H1. lia.
    + apply idx_up_exit in E; [subst i | assumption].
      unfold settled; simpl. auto.
  - (* L165 *)
    destruct (aget_in_bounds (dstdata1 f) i) as (c0 & _ & ->); [rewrite Hl2; lia|].
    unfold settled; simpl. repeat split; auto.
    intros j Hj. apply H1. rewrite incr_u8_small in Hj by lia. lia.
  - (* L173 *)
    destruct (i <? DMAC_TRANSFER_SIZE) eqn:E; [|unfold settled; simpl; auto].
    apply idx_down_body in E; [|assumption].
    destruct (copy_cell_in_bounds (g_region2Src r) (srcdata2 f) i)
      as (b & _ & ->); [rewrite Hs2, length_src0; lia | rewrite Hl3; lia |].
    unfold settled; simpl; auto.
  - (* L176 *)
    destruct (aget_in_bounds (srcdata2 f) i) as (c0 & _ & ->); [rewrite Hl3; lia|].
    unfold settled; simpl. repeat split; auto; intros; lia.
  - (* L183 *)
    destruct (i <? DMAC_TRANSFER_SIZE) eqn:E.
    + apply idx_down_body in E; [|assumption].
      destruct (copy_cell_in_bounds (g_region2Dst r) (dstdata2 f) i)
        as (b & Hb' & ->); [rewrite Hd2; lia | rewrite Hl4; lia |].
      rewrite todo_down_body in H2 by lia. rewrite E2 in Hb'.
      unfold settled; simpl. repeat split; auto.
      intros j Hj. apply settled_copy; auto; [lia|].
      intros Hne. apply H2. lia.
    + apply idx_down_exit in E; [subst i | assumption].
      unfold settled; simpl. repeat split; auto.
  - (* L186 *)
    destruct (aget_in_bounds (dstdata2 f) i) as (c0 & _ & ->); [rewrite Hl4; lia|].
    unfold settled; simpl. repeat split; auto.
    intros j Hj. apply H2. rewrite todo_down_decr in Hj by lia. lia.
Qed.

Lemma settled_run sched s :
  Inv (core s) -> settled (core s) ->
  Inv (core (run sched s)) /\ settled (core (run sched s)).
Proof.
  intros HI H.
  apply (run_keeps (fun m => Inv m /\ settled m)); [| |auto].
  - intros m (I & S). split; [apply Inv_cpu_step, I | apply settled_cpu_step; assumption].
  - intros m (I & S). split; [apply Inv_dma_step, I|].
    destruct I as (_ & _ & He & _). destruct S as (Hq & S).
    destruct (engine_ok_done_idle _ _ _ He Hq) as (Ha & _).
    rewrite (dma_step_idle m Ha). split; assumption.
Qed.

Lemma before_readback_counts l :
  before_readback l = true -> done2 l = 0%nat /\ todo4 l = 16%nat.
Proof. destruct l; intros H; try discriminate H; split; reflexivity. Qed.

Lemma list16_ext (l : list byte) :
  length l = 16%nat ->
  (forall j, (j < 16)%nat -> nth_error l j = nth_error src0 j) -> l = src0.
Proof.
  intros Hl H. apply nth_error_ext. intros j.
  destruct (Nat.lt_ge_cases j 16) as [Hj|Hj]; [auto|].
  transitivity (@None byte); [|symmetry]; apply nth_error_None;
    rewrite ?Hl, ?length_src0; exact Hj.
Qed.

(** After a transfer that was complete before the read-back began, the
    local copies and the regions all hold the literal. *)
Lemma settled_report g pre post :
  before_readback (pc (exec g pre)) = true ->
  Cy_DMAC_Descriptor_GetResponse CY_DMAC_DESCRIPTOR_PONG (exec g pre) = Done ->
  pc (exec g (pre ++ post)) = L195 ->
  let m := exec g (pre ++ post) in
  (dstdata1 (locals m) = src0 /\ dstdata2 (locals m) = src0) /\
  (g_region1Src (mem m) = src0 /\ g_region2Src (mem m) = src0) /\
  (g_region1Dst (mem m) = src0 /\ g_region2Dst (mem m) = src0).
Proof.
  intros Hb Hq Hpc. cbv zeta.
  destruct (before_readback_counts _ Hb) as (Hd & Ht).
  assert (S0 : settled (exec g pre)).
  { split; [exact Hq|]. rewrite Hd, Ht. split; intros j Hj; lia. }
  destruct (settled_run post _ (Inv_exec g pre) S0) as (_ & Hq' & S1 & S2).
  rewrite <- exec_app in Hq', S1, S2. rewrite Hpc in S1, S2. simpl in S1, S2.
  pose proof (Inv_exec g (pre ++ post)) as HI.
  destruct HI as ((Hs1 & Hs2 & _) & _ & He & (_ & (_ & Hl2 & _ & Hl4) & _)).
  destruct (engine_ok_pong_done _ _ _ He Hq') as (_ & _ & E1 & E2).
  repeat split; auto.
  - apply (list16_ext _ Hl2 S1).
  - apply (list16_ext _ Hl4). intros j Hj. apply S2. lia.
Qed.

(** X8. If the pong flag reads [Done] at a moment when the program has
    not yet begun to read the destinations back (it stands at main.c:160
    or earlier), and the run reaches the idle loop, then the report shows
    both copies in full: the PING destination line repeats the literal and
    the PONG destination line repeats it reversed. *)
Theorem report_after_complete_transfer g pre post :
  before_readback (pc (exec g pre)) = true ->
  Cy_DMAC_Descriptor_GetResponse CY_DMAC_DESCRIPTOR_PONG (exec g pre) = Done ->
  pc (exec g (pre ++ post)) = L195 ->
  console (exec g (pre ++ post)) =
    str_clear_screen ++
    str_banner_rule ++ str_banner_title ++ str_banner_rule_end ++
    chars "PING source = PSoC4_HVMS-DMADC" ++ [CR; LF] ++
    chars "PING destination = PSoC4_HVMS-DMADC" ++ [CR; LF] ++
    chars "PONG source = CDAMD-SMVH_4CoSP" ++ [CR; LF] ++
    chars "PONG destination = CDAMD-SMVH_4CoSP" ++ [CR; LF] ++
    chars "- DMA transfer is completed. " ++ [CR; LF].
Proof.
  intros Hb Hq Hpc.
  destruct (settled_report g pre post Hb Hq Hpc)
    as ((L1 & L2) & (R1 & R2) & _).
  rewrite (idle_transcript _ (Inv_exec g (pre ++ post)) Hpc).
  rewrite L1, L2, R1, R2. reflexivity.
Qed.

(** C2, amended.  Take a run that reaches the idle loop and in which the
    pong flag read [Done] at a moment when the program had not yet begun
    to read the destinations back (it stood at main.c:160 or earlier).
    Its console output is, in order: the clear-screen sequence, the
    banner, ["PING source = "] and the 16 bytes of [g_region1Src], a line
    end, ["PING destination = "] and the 16 bytes of [g_region1Dst], a line
    end, ["PONG source = "] and the 16 bytes of [g_region2Src] reversed, a
    line end, ["PONG destination = "] and the 16 bytes of [g_region2Dst]
    reversed, a line end, and the line ["- DMA transfer is completed. "],
    which ends in a blank and is the final line. *)
Theorem reporting_run_transcript g pre post :
  before_readback (pc (exec g pre)) = true ->
  Cy_DMAC_Descriptor_GetResponse CY_DMAC_DESCRIPTOR_PONG (exec g pre) = Done ->
  pc (exec g (pre ++ post)) = L195 ->
  let m := exec g (pre ++ post) in
  console m =
    str_clear_screen ++
    str_banner_rule ++ str_banner_title ++ str_banner_rule_end ++
    chars "PING source = " ++ g_region1Src (mem m) ++ [CR; LF] ++
    chars "PING destination = " ++ g_region1Dst (mem m) ++ [CR; LF] ++
    chars "PONG source = " ++ rev (g_region2Src (mem m)) ++ [CR; LF] ++
    chars "PONG destination = " ++ rev (g_region2Dst (mem m)) ++ [CR; LF] ++
    chars "- DMA transfer is completed. " ++ [CR; LF] /\
  (length (g_region1Src (mem m)) = 16%nat /\ length (g_region1Dst (mem m)) = 16%nat /\
   length (g_region2Src (mem m)) = 16%nat /\ length (g_region2Dst (mem m)) = 16%nat) /\
  final_line (console m) = chars "- DMA transfer is completed. ".
Proof.
  intros Hb Hq Hpc. cbv zeta.
  destruct (settled_report g pre post Hb Hq Hpc)
    as ((L1 & L2) & (R1 & R2) & (D1 & D2)).
  pose proof (Inv_exec g (pre ++ post)) as HI.
  rewrite (idle_transcript _ HI Hpc).
  split; [|split].
  - rewrite L1, L2, R1, R2, D1, D2. reflexivity.
  - rewrite R1, R2, D1, D2. repeat split; apply length_src0.
  - apply transcript_final_line.
Qed.

(** X12. Whatever the interleaving, a run that reaches the idle loop has
    printed the banner, the four labelled lines and the completion line:
    the source blocks are the source regions, the destination blocks are
    the local arrays [dstdata1] and [dstdata2] as the loops filled them,
    and the final line is ["- DMA transfer is completed. "], with its
    blank. *)
Theorem report_ends_with_completion_line g sched :
  pc (exec g sched) = L195 ->
  let m := exec g sched in
  console m = transcript (g_region1Src (mem m)) (dstdata1 (locals m))
                (g_region2Src (mem m)) (dstdata2 (locals m)) /\
  final_line (console m) = chars "- DMA transfer is completed. ".
Proof.
  intros Hpc. cbv zeta.
  rewrite (idle_transcript _ (Inv_exec g sched) Hpc).
  split; [reflexivity | apply transcript_final_line].
Qed.

End Program.

(** * Concrete runs *)

Lemma bytes_eqb_refl a : bytes_eqb a a = true.
Proof.
  induction a as [|x a IH]; simpl; [reflexivity|].
  rewrite IH, andb_true_r. destruct x; reflexivity.
Qed.

Lemma bytes_eqb_false a b : bytes_eqb a b = false -> a <> b.
Proof. intros H E. subst b. rewrite bytes_eqb_refl in H. discriminate H. Qed.

(** C1. The polling loop of main.c:147 tests [CY_DMAC_DONE == response], so
    it is left as soon as the pong flag is read as pending.  On a good
    board, with the engine slower than the processor: after 20 processor
    steps the program stands at main.c:150, the pong flag is pending, the
    engine has not moved a byte and both destinations are still zero; the
    report then prints 16 zero bytes for each destination.  With the
    engine faster than the processor the flag reads [Done] at the first
    poll and the program stays in the loop for ever, the console holding
    the banner only. *)
Theorem poll_loop_left_while_pong_pending :
  (let m := exec 0 0 g0 (repeat CPU 20) in
   pc m = L150 /\
   Cy_DMAC_Descriptor_GetResponse CY_DMAC_DESCRIPTOR_PONG m = Pending /\
   active (dma m) = Some (CY_DMAC_DESCRIPTOR_PING, 0%nat) /\
   g_region1Dst (mem m) = repeat NUL 16 /\
   g_region2Dst (mem m) = repeat NUL 16) /\
  (let m := exec 0 0 g0 sched_cpu_only in
   pc m = L195 /\
   Cy_DMAC_Descriptor_GetResponse CY_DMAC_DESCRIPTOR_PONG m = Pending /\
   slice at_ping_destination 16 (console m) = repeat NUL 16 /\
   slice at_pong_destination 16 (console m) = repeat NUL 16) /\
  (let m := exec 0 0 g0 (sched_engine_first ++ repeat CPU 50) in
   pc m = L147 /\
   Cy_DMAC_Descriptor_GetResponse CY_DMAC_DESCRIPTOR_PONG m = Done /\
   console m = header).
Proof. vm_compute. repeat split. Qed.

(** C2, as stated, fails on two counts.  The last line of the report is
    not the literal ["- DMA transfer is completed."]: main.c:193 prints a
    blank after the full stop.  And a report can show, after
    ["PING destination = "], 16 bytes that are not the content of
    [g_region1Dst]: in the run [sched_race] the report reads the first
    cell before the engine has written it. *)
Lemma transcript_claim_fails_on_concrete_runs :
  (pc (exec 0 0 g0 sched_report) = L195 /\
   final_line (console (exec 0 0 g0 sched_report))
     <> chars "- DMA transfer is completed.") /\
  (pc (exec 0 0 g0 sched_race) = L195 /\
   slice at_ping_destination 16 (console (exec 0 0 g0 sched_race))
     <> g_region1Dst (mem (exec 0 0 g0 sched_race))).
Proof.
  split; (split; [vm_compute; reflexivity|]).
  - vm_compute. intros H. discriminate H.
  - vm_compute. intros H. discriminate H.
Qed.

(** C4.  Because the polling loop of main.c:147 is left while the chain
    is still pending, the report can read a destination while the engine
    is writing it, and then a printed block is not its buffer in any
    order.  In the run [sched_race] the poll sees the pong flag pending,
    the report reads cell 0 of the ping destination, the engine then
    completes both descriptors, and the report reads the other cells: the
    block printed after ["PING destination = "] is a zero byte followed by
    ["SoC4_HVMS-DMADC"], which is the content of [g_region1Dst] at no
    moment of the run, and not what the region holds in the end.  In the
    run [sched_race_pong] the engine moves after four cells of the pong
    destination are read: the block printed after
    ["PONG destination = "] starts with four zero bytes and is not the
    reverse of [g_region2Dst], and the PING destination block is all
    zero. *)
Theorem racing_report_prints_stale_destination :
  (pc (exec 0 0 g0 (repeat CPU 19)) = L147 /\
   Cy_DMAC_Descriptor_GetResponse CY_DMAC_DESCRIPTOR_PONG
     (exec 0 0 g0 (repeat CPU 19)) = Pending /\
   pc (exec 0 0 g0 (repeat CPU 20)) = L150) /\
  (let m := exec 0 0 g0 sched_race in
   pc m = L195 /\
   slice (at_ping_destination - 19) 19 (console m) = chars "PING destination = " /\
   slice at_ping_destination 16 (console m) = NUL :: chars "SoC4_HVMS-DMADC" /\
   g_region1Dst (mem m) = chars "PSoC4_HVMS-DMADC" /\
   (forall k, g_region1Dst (mem (exec 0 0 g0 (firstn k sched_race)))
              <> slice at_ping_destination 16 (console m))) /\
  (let m := exec 0 0 g0 sched_race_pong in
   pc m = L195 /\
   slice (at_pong_destination - 19) 19 (console m) = chars "PONG destination = " /\
   slice at_pong_destination 16 (console m) = repeat NUL 4 ++ chars "D-SMVH_4CoSP" /\
   rev (g_region2Dst (mem m)) = chars "CDAMD-SMVH_4CoSP" /\
   slice at_ping_destination 16 (console m) = repeat NUL 16 /\
   g_region1Dst (mem m) = chars "PSoC4_HVMS-DMADC").
Proof.
  split; [vm_compute; repeat split|].
  split; [|vm_compute; repeat split].
  cbv zeta.
  split; [vm_compute; reflexivity|]. split; [vm_compute; reflexivity|].
  split; [vm_compute; reflexivity|]. split; [vm_compute; reflexivity|].
  assert (A : forallb
                (fun k => negb (bytes_eqb
                   (g_region1Dst (mem (exec 0 0 g0 (firstn k sched_race))))
                   (slice at_ping_destination 16 (console (exec 0 0 g0 sched_race)))))
                (seq 0 (S (length sched_race))) = true)
    by (vm_compute; reflexivity).
  rewrite forallb_forall in A.
  assert (B : forall k, (k <= length sched_race)%nat ->
            g_region1Dst (mem (exec 0 0 g0 (firstn k sched_race)))
            <> slice at_ping_destination 16 (console (exec 0 0 g0 sched_race))).
  { intros k Hk. apply bytes_eqb_false, negb_true_iff, A, in_seq. lia. }
  intros k. destruct (Nat.le_gt_cases k (length sched_race)) as [Hk|Hk].
  - apply B, Hk.
  - rewrite firstn_all2 by lia. rewrite <- (firstn_all sched_race) at 1.
    apply B. lia.
Qed.

(** ** Witnesses *)

Lemma reporting_run_transcript_witness :
  before_readback (pc (exec 0 0 g0 (repeat CPU 20 ++ repeat DMA 34))) = true /\
  Cy_DMAC_Descriptor_GetResponse CY_DMAC_DESCRIPTOR_PONG
    (exec 0 0 g0 (repeat CPU 20 ++ repeat DMA 34)) = Done /\
  pc (exec 0 0 g0 ((repeat CPU 20 ++ repeat DMA 34) ++ paced 150)) = L195 /\
  final_line (console (exec 0 0 g0 ((repeat CPU 20 ++ repeat DMA 34) ++ paced 150)))
    = chars "- DMA transfer is completed. ".
Proof.
  assert (H1 : before_readback (pc (exec 0 0 g0 (repeat CPU 20 ++ repeat DMA 34))) = true)
    by (vm_compute; reflexivity).
  assert (H2 : Cy_DMAC_Descriptor_GetResponse CY_DMAC_DESCRIPTOR_PONG
                 (exec 0 0 g0 (repeat CPU 20 ++ repeat DMA 34)) = Done)
    by (vm_compute; reflexivity).
  assert (H3 : pc (exec 0 0 g0 ((repeat CPU 20 ++ repeat DMA 34) ++ paced 150)) = L195)
    by (vm_compute; reflexivity).
  split; [exact H1|]. split; [exact H2|]. split; [exact H3|].
  exact (proj2 (proj2 (reporting_run_transcript 0 0 g0 _ _ H1 H2 H3))).
Defined.

Lemma destinations_zero_before_trigger_witness :
  before_trigger (pc (exec 0 0 g0 (repeat CPU 18))) = true /\
  g_region1Dst (mem (exec 0 0 g0 (repeat CPU 18))) = repeat NUL 16.
Proof.
  split; [vm_compute; reflexivity|].
  apply (destinations_zero_before_trigger 0 0 g0 (repeat CPU 18)).
  vm_compute; reflexivity.
Defined.

Lemma copy_correct_when_pong_done_witness :
  Cy_DMAC_Descriptor_GetResponse CY_DMAC_DESCRIPTOR_PONG
    (exec 0 0 g0 sched_engine_first) = Done /\
  g_region2Dst (mem (exec 0 0 g0 sched_engine_first))
    = g_region2Src (mem (exec 0 0 g0 sched_engine_first)).
Proof.
  split; [vm_compute; reflexivity|].
  apply (copy_correct_when_pong_done 0 0 g0 sched_engine_first).
  vm_compute; reflexivity.
Defined.

Lemma pong_never_done_before_ping_witness :
  active (dma (exec 0 0 g0 (repeat CPU 19 ++ repeat DMA 20)))
    = Some (CY_DMAC_DESCRIPTOR_PONG, 3%nat) /\
  d_response (ping (dma (exec 0 0 g0 (repeat CPU 19 ++ repeat DMA 20)))) = Done.
Proof.
  split; [vm_compute; reflexivity|].
  apply (pong_never_done_before_ping 0 0 g0 (repeat CPU 19 ++ repeat DMA 20)).
  right. exists 3%nat. vm_compute; reflexivity.
Defined.

Lemma init_failure_halts_silently_witness :
  1 <> 0 /\
  console (exec 0 1 g0 sched_report) = [] /\
  pc (exec 0 1 g0 sched_report) = L105.
Proof.
  assert (H : 1 <> 0) by lia.
  split; [exact H|].
  destruct (init_failure_halts_silently 0 1 g0 sched_report H) as (Ho & _ & Hh & _).
  split; [exact Ho|].
  apply Hh. vm_compute. lia.
Defined.

Lemma pong_loops_run_sixteen_times_witness :
  pc (exec 0 0 g0 sched_report) = L195 /\
  filter in_pong_loop (cpu_pcs 0 0 sched_report (boot g0))
    = pong_passes false ++ pong_passes true /\
  pc (exec 0 0 g0 (repeat CPU 20 ++ paced 71)) = pong_loop false 15 /\
  pc (exec 0 0 g0 ((repeat CPU 20 ++ paced 71) ++ paced 33)) = pong_loop_exit false /\
  pc (exec 0 0 g0 (repeat CPU 20 ++ paced 106)) = pong_loop true 15 /\
  pc (exec 0 0 g0 ((repeat CPU 20 ++ paced 106) ++ paced 33)) = pong_loop_exit true.
Proof.
  assert (H1 : pc (exec 0 0 g0 sched_report) = L195) by (vm_compute; reflexivity).
  assert (H2 : pc (exec 0 0 g0 (repeat CPU 20 ++ paced 71)) = pong_loop false 15)
    by (vm_compute; reflexivity).
  assert (H3 : pc (exec 0 0 g0 (repeat CPU 20 ++ paced 106)) = pong_loop true 15)
    by (vm_compute; reflexivity).
  destruct (pong_loops_run_sixteen_times 0 0 g0) as (A & B & _).
  split; [exact H1|]. split; [exact (A _ H1)|].
  split; [exact H2|]. split; [exact (proj2 (proj2 (B _ false [] H2)))|].
  split; [exact H3|]. exact (proj2 (proj2 (B _ true [] H3))).
Defined.


Lemma ping_loops_run_sixteen_times_witness :
  pc (exec 0 0 g0 sched_report) = L195 /\
  filter in_ping_loop (cpu_pcs 0 0 sched_report (boot g0))
    = ping_passes false ++ ping_passes true /\
  pc (exec 0 0 g0 (repeat CPU 20 ++ paced 1)) = ping_loop false 0 /\
  pc (exec 0 0 g0 ((repeat CPU 20 ++ paced 1) ++ paced 33)) = ping_loop_exit false /\
  pc (exec 0 0 g0 (repeat CPU 20 ++ paced 36)) = ping_loop true 0 /\
  pc (exec 0 0 g0 ((repeat CPU 20 ++ paced 36) ++ paced 33)) = ping_loop_exit true.
Proof.
  assert (H1 : pc (exec 0 0 g0 sched_report) = L195) by (vm_compute; reflexivity).
  assert (H2 : pc (exec 0 0 g0 (repeat CPU 20 ++ paced 1)) = ping_loop false 0)
    by (vm_compute; reflexivity).
  assert (H3 : pc (exec 0 0 g0 (repeat CPU 20 ++ paced 36)) = ping_loop true 0)
    by (vm_compute; reflexivity).
  destruct (ping_loops_run_sixteen_times 0 0 g0) as (A & B).
  split; [exact H1|]. split; [exact (A _ H1)|].
  split; [exact H2|]. split; [exact (proj2 (proj2 (B _ false [] H2)))|].
  split; [exact H3|]. exact (proj2 (proj2 (B _ true [] H3))).
Defined.

Lemma init_success_reaches_trigger_witness :
  0 = 0 /\ pc (exec 0 0 g0 sched_report) <> L105.
Proof.
  split; [reflexivity|].
  apply (init_success_reaches_trigger 0 0 g0 sched_report). reflexivity.
Defined.

Lemma trigger_starts_configured_chain_witness :
  pc (exec 0 0 g0 (repeat CPU 18)) = L144 /\
  active (dma (cpu_step 0 0 (exec 0 0 g0 (repeat CPU 18))))
    = Some (CY_DMAC_DESCRIPTOR_PING, 0%nat).
Proof.
  split; [vm_compute; reflexivity|].
  apply (trigger_starts_configured_chain 0 0 g0 (repeat CPU 18)).
  vm_compute; reflexivity.
Defined.

Lemma poll_loop_spins_once_done_witness :
  pc (exec 0 0 g0 sched_engine_first) = L147 /\
  Cy_DMAC_Descriptor_GetResponse CY_DMAC_DESCRIPTOR_PONG
    (exec 0 0 g0 sched_engine_first) = Done /\
  console (exec 0 0 g0 (sched_engine_first ++ repeat CPU 200)) = header.
Proof.
  split; [vm_compute; reflexivity|]. split; [vm_compute; reflexivity|].
  apply (poll_loop_spins_once_done 0 0 g0 sched_engine_first (repeat CPU 200));
    vm_compute; reflexivity.
Defined.

Lemma idle_loop_is_final_witness :
  pc (exec 0 0 g0 sched_report) = L195 /\
  length (console (exec 0 0 g0 sched_report)) = 344%nat.
Proof.
  split; [vm_compute; reflexivity|].
  apply (idle_loop_is_final 0 0 g0 sched_report [CPU; DMA; CPU]).
  vm_compute; reflexivity.
Defined.

Lemma report_after_complete_transfer_witness :
  before_readback (pc (exec 0 0 g0 (repeat CPU 20 ++ repeat DMA 34))) = true /\
  Cy_DMAC_Descriptor_GetResponse CY_DMAC_DESCRIPTOR_PONG
    (exec 0 0 g0 (repeat CPU 20 ++ repeat DMA 34)) = Done /\
  pc (exec 0 0 g0 ((repeat CPU 20 ++ repeat DMA 34) ++ paced 150)) = L195 /\
  slice at_pong_destination 16
    (console (exec 0 0 g0 ((repeat CPU 20 ++ repeat DMA 34) ++ paced 150)))
    = chars "CDAMD-SMVH_4CoSP".
Proof.
  split; [vm_compute; reflexivity|]. split; [vm_compute; reflexivity|].
  split; [vm_compute; reflexivity|].
  rewrite (report_after_complete_transfer 0 0 g0
             (repeat CPU 20 ++ repeat DMA 34) (paced 150));
    vm_compute; reflexivity.
Defined.

Lemma reporting_after_pending_poll_witness :
  reporting (pc (exec 0 0 g0 sched_report)) = true /\
  exists pre post,
    sched_report = pre ++ CPU :: post /\
    pc (exec 0 0 g0 pre) = L147 /\
    Cy_DMAC_Descriptor_GetResponse CY_DMAC_DESCRIPTOR_PONG (exec 0 0 g0 pre) = Pending /\
    pc (exec 0 0 g0 (pre ++ [CPU])) = L150.
Proof.
  split; [vm_compute; reflexivity|].
  apply (reporting_after_pending_poll 0 0 g0 sched_report). vm_compute; reflexivity.
Defined.

Lemma pong_blocks_reversed_ping_blocks_forward_witness :
  pc (exec 0 0 g0 sched_report) = L195 /\
  slice at_pong_source 16 (console (exec 0 0 g0 sched_report))
    = chars "CDAMD-SMVH_4CoSP".
Proof.
  split; [vm_compute; reflexivity|].
  apply (pong_blocks_reversed_ping_blocks_forward 0 0 g0 sched_report).
  vm_compute; reflexivity.
Defined.


Lemma report_ends_with_completion_line_witness :
  pc (exec 0 0 g0 sched_race) = L195 /\
  final_line (console (exec 0 0 g0 sched_race))
    = chars "- DMA transfer is completed. ".
Proof.
  assert (H : pc (exec 0 0 g0 sched_race) = L195) by (vm_compute; reflexivity).
  split; [exact H|].
  exact (proj2 (report_ends_with_completion_line 0 0 g0 sched_race H)).
Defined.
